(** * chroma-curator: similarity, profiling and edge export

    A shallow embedding of [chroma_curator/core.py] and of the profiling
    and export functions of [cli.py], with the properties of the written
    specification stated over it.

    Numbers are the program's: a Python/numpy float is an IEEE-754
    binary64 value, modelled by Rocq's primitive [float]; integers are [Z].
    Python exceptions are the [Raise] results of a small error monad. *)

From Stdlib Require Import ZArith List Floats Bool Lia.
From Stdlib Require Import Sorting.Permutation Sorting.Sorted.
From stdpp Require Import base gmap strings.

Import ListNotations.
Local Open Scope Z_scope.

(** ** Exceptions *)

Inductive exn : Type :=
| ValueError      (* np.dot: shapes not aligned; np.array: inhomogeneous shape *)
| KeyError        (* missing column or dict key *)
| IndexError      (* index out of bounds *)
| AttributeError. (* e.g. a Python list has no tolist *)

Inductive result (A : Type) : Type :=
| Ok (a : A)
| Raise (e : exn).

Arguments Ok {A} a.
Arguments Raise {A} e.

#[global] Instance result_bind : MBind result :=
  fun A B (k : A -> result B) (m : result A) =>
    match m with
    | Ok a => k a
    | Raise e => Raise e
    end.

(** ** Python slicing and list.sort *)

(** [xs[:stop]] for an integer [stop]: a negative stop counts from the end. *)
Definition slice_to {A} (xs : list A) (stop : Z) : list A :=
  if stop <? 0
  then firstn (Z.to_nat (Z.of_nat (length xs) + stop)) xs
  else firstn (Z.to_nat stop) xs.

Section StableSort.
Context {A : Type}.
(** The only comparison [list.sort] performs: [x < y] on the keys. *)
Variable lt : A -> A -> bool.

(** [x] goes after every element that is not greater than it. *)
Fixpoint insert_by (x : A) (l : list A) : list A :=
  match l with
  | [] => [x]
  | y :: l' => if lt x y then x :: y :: l' else y :: insert_by x l'
  end.

(** Stable ascending sort, elements taken from left to right. *)
Definition sort_by (l : list A) : list A :=
  fold_left (fun acc x => insert_by x acc) l [].

(** [l.sort(reverse=True)]: CPython reverses the list, runs its stable
    ascending sort and reverses the outcome, which keeps elements with
    equal keys in their original order.  Where [lt] is a strict weak
    order on the keys every stable sort computes this list. *)
Definition list_sort_reverse (l : list A) : list A :=
  rev (sort_by (rev l)).
End StableSort.

(** ** chroma_curator/core.py *)

Module Core.

Local Open Scope float_scope.

(** [np.dot] of two one-dimensional float arrays: the lengths must agree. *)
Definition np_dot (v1 v2 : list float) : result float :=
  if Nat.eqb (length v1) (length v2)
  then Ok (fold_left (fun acc p => acc + fst p * snd p) (combine v1 v2) 0)
  else Raise ValueError.

(** [np.linalg.norm] of a one-dimensional array: [sqrt(dot(x, x))]. *)
Definition np_linalg_norm (v : list float) : float :=
  sqrt (fold_left (fun acc x => acc + x * x) v 0).

Definition cosine_similarity (v1 v2 : list float) : result float :=
  num ← np_dot v1 v2;
  let denom := np_linalg_norm v1 * np_linalg_norm v2 in
  if denom =? 0 then Ok 0 else Ok (num / denom).

(** A record dict with its ['id'] and ['vector'] entries. *)
Record record : Type := mk_record {
  rec_id : string;
  rec_vector : list float
}.

(** The loop that fills [scored]; the first failing similarity aborts it. *)
Fixpoint score_records (query : list float) (records : list record)
  : result (list (float * record)) :=
  match records with
  | [] => Ok []
  | rec :: rest =>
      sim ← cosine_similarity query (rec_vector rec);
      scored ← score_records query rest;
      Ok ((sim, rec) :: scored)
  end.

Definition top_similar_vectors (query : list float) (records : list record)
  (top_k : Z) : result (list record) :=
  scored ← score_records query records;
  let scored := list_sort_reverse (fun x y => fst x <? fst y) scored in
  Ok (map snd (slice_to scored top_k)).

End Core.

(** ** cli.py *)

Module Cli.

(** A metadata scalar or table cell.  [VNull] is the missing value
    (None, NaN, NaT); [VTimestamp] is a parsed date, in nanoseconds. *)
Inductive value : Type :=
| VNull
| VStr (s : string)
| VInt (n : Z)
| VFloat (x : float)
| VBool (b : bool)
| VTimestamp (t : Z).

#[global] Instance float_eq_dec : EqDecision float.
Proof.
  intros x y. destruct (PrimFloat.Leibniz.eqb x y) eqn:E.
  - left. apply FloatAxioms.Leibniz.eqb_spec. exact E.
  - right. intros ->.
    assert (H : PrimFloat.Leibniz.eqb y y = true)
      by (apply FloatAxioms.Leibniz.eqb_spec; reflexivity).
    congruence.
Defined.

#[global] Instance value_eq_dec : EqDecision value.
Proof. solve_decision. Defined.

(** One stored item of a collection. *)
Record item : Type := mk_item {
  item_id : string;
  item_embedding : list float;
  item_metadata : gmap string value;
  item_document : option string
}.

(** What the datastore hands over: [count()] is the number of items and
    [get(include=...)] returns the four parallel lists. *)
Record collection : Type := mk_collection {
  coll_name : string;
  coll_items : list item
}.

(** A table row: its index label and its cells.  A column without a cell
    on this row holds the missing value. *)
Record row : Type := mk_row {
  label : nat;
  cells : gmap string value
}.

Record DataFrame : Type := mk_df {
  columns : gset string;
  rows : list row
}.

Definition cell (r : row) (k : string) : value :=
  default VNull (cells r !! k).

(** [pd.DataFrame()] *)
Definition empty_frame : DataFrame := mk_df ∅ [].

(** [pd.DataFrame(metas)]: one row per dict, labelled 0, 1, ...; the
    columns are the keys seen in any dict. *)
Definition frame_of_dicts (metas : list (gmap string value)) : DataFrame :=
  mk_df (foldr (fun m acc => dom m ∪ acc) ∅ metas)
        (imap (fun i m => mk_row i m) metas).

(** [df[col] = values], the values given in row order. *)
Definition set_column (df : DataFrame) (col : string) (values : list value)
  : DataFrame :=
  mk_df ({[ col ]} ∪ columns df)
        (zip_with (fun r v => mk_row (label r) (<[ col := v ]> (cells r)))
                  (rows df) values).

(** Arrays as [np.array] builds them from the fetched embeddings. *)
Inductive ndarray : Type :=
| Array2 (vectors : list (list float))    (* ndim = 2, one row per record *)
| ArrayObj (vectors : list (list float))  (* ndim = 1, dtype object *)
| Array1 (xs : list float).               (* ndim = 1 *)

Definition ndim (a : ndarray) : nat :=
  match a with
  | Array2 _ => 2
  | ArrayObj _ | Array1 _ => 1
  end.

(** [embeddings.shape[1]] of a two-dimensional array. *)
Definition shape1 (a : ndarray) : nat :=
  match a with
  | Array2 (v :: _) => length v
  | _ => 0
  end.

(** What [np.array] does with rows of unequal lengths depends on the
    installed numpy: releases before 1.24 build a one-dimensional object
    array (with a deprecation warning), 1.24 and later raise ValueError. *)
Inductive numpy_release : Type :=
| Numpy_before_1_24
| Numpy_1_24_or_later.

Definition homogeneous (vectors : list (list float)) : bool :=
  match vectors with
  | [] => true
  | v :: rest => forallb (fun w => Nat.eqb (length w) (length v)) rest
  end.

(** [np.array(all_items['embeddings'])] on a non-empty list of vectors. *)
Definition np_array (np : numpy_release) (vectors : list (list float))
  : result ndarray :=
  if homogeneous vectors then Ok (Array2 vectors)
  else match np with
       | Numpy_before_1_24 => Ok (ArrayObj vectors)
       | Numpy_1_24_or_later => Raise ValueError
       end.

(** [embeddings[i].tolist()] *)
Definition row_tolist (a : ndarray) (i : nat) : result (list float + float) :=
  match a with
  | Array2 vs =>
      match vs !! i with
      | Some v => Ok (inl v)
      | None => Raise IndexError
      end
  | ArrayObj vs =>
      match vs !! i with
      | Some _ => Raise AttributeError
      | None => Raise IndexError
      end
  | Array1 xs =>
      match xs !! i with
      | Some x => Ok (inr x)
      | None => Raise IndexError
      end
  end.

(** Values of the profile dict. *)
Inductive pyval : Type :=
| PNone
| PInt (n : Z)
| PStrs (l : list string).

(** [has_doc]: [d is not None and len(str(d)) > 0] *)
Definition has_doc_of (d : option string) : bool :=
  match d with
  | Some s => negb (Nat.eqb (String.length s) 0)
  | None => false
  end.

(** [doc_len]: [len(str(d)) if d else 0] *)
Definition doc_len_of (d : option string) : Z :=
  match d with
  | Some s => Z.of_nat (String.length s)
  | None => 0
  end.

(** [len(set(ids))] and [[k for k, v in Counter(ids).items() if v > 1]] *)
Definition unique_ids (ids : list string) : list string := remove_dups ids.

Definition duplicate_ids (ids : list string) : list string :=
  filter (fun k => (1 < length (filter (fun x => x = k) ids))%nat)
         (remove_dups ids).

(** [profile_collection].  The returned dict is modelled on its entries
    num_records, embedding_dim, unique_ids and duplicate_ids; the
    descriptive statistics (field_completeness, has_document_pct, the two
    describe() summaries, fields, top_fields) are total functions of the
    table and are left out. *)
Definition profile_collection (np : numpy_release) (c : collection)
  : result (gmap string pyval * DataFrame * ndarray
            * list (option string) * list string) :=
  let n := length (coll_items c) in
  if Nat.eqb n 0 then Ok (∅, empty_frame, Array1 [], [], [])
  else
    let ids := map item_id (coll_items c) in
    embeddings ← np_array np (map item_embedding (coll_items c));
    let metas := map item_metadata (coll_items c) in
    let docs := map item_document (coll_items c) in
    let df := frame_of_dicts metas in
    let df := set_column df "id" (map VStr ids) in
    let df :=
      if Nat.eqb (ndim embeddings) 2
      then set_column df "embedding_norm"
             (map (fun v => VFloat (Core.np_linalg_norm v))
                  (map item_embedding (coll_items c)))
      else df in
    let df := set_column df "has_doc" (map (fun d => VBool (has_doc_of d)) docs) in
    let df := set_column df "doc_len" (map (fun d => VInt (doc_len_of d)) docs) in
    let profile : gmap string pyval :=
      {[ "num_records" := PInt (Z.of_nat n);
         "embedding_dim" :=
           (if Nat.eqb (ndim embeddings) 2
            then PInt (Z.of_nat (shape1 embeddings)) else PNone);
         "unique_ids" := PInt (Z.of_nat (length (unique_ids ids)));
         "duplicate_ids" := PStrs (duplicate_ids ids) ]} in
    Ok (profile, df, embeddings, docs, ids).

(** *** export_for_edge *)

Definition default_key_fields : list string :=
  ["id"; "title"; "summary"; "cve_id"; "published"; "source"; "severity"].

(** [df.drop_duplicates(subset=['id'])], keep='first': a row is dropped
    when its id was seen on an earlier row. *)
Fixpoint drop_duplicates_from (seen : list value) (l : list row) : list row :=
  match l with
  | [] => []
  | r :: l' =>
      if decide (cell r "id" ∈ seen) then drop_duplicates_from seen l'
      else r :: drop_duplicates_from (cell r "id" :: seen) l'
  end.

Definition drop_duplicates (df : DataFrame) : result DataFrame :=
  if decide ("id" ∈ columns df)
  then Ok (mk_df (columns df) (drop_duplicates_from [] (rows df)))
  else Raise KeyError.

(** The key a cell contributes to a sort: integers and timestamps by
    value, the missing value as NaN/NaT (placed last). *)
Definition sort_key (v : value) : option Z :=
  match v with
  | VInt n | VTimestamp n => Some n
  | _ => None
  end.

(** [a] must come no later than [b] in a descending sort, missing last. *)
Definition key_ge (a b : option Z) : Prop :=
  match a, b with
  | Some x, Some y => y <= x
  | _, None => True
  | None, Some _ => False
  end.

(** [a] comes strictly before [b] in a descending sort, missing last. *)
Definition key_before (a b : option Z) : bool :=
  match a, b with
  | Some x, Some y => y <? x
  | Some _, None => true
  | None, _ => false
  end.

(** A descending sort that keeps rows with equal keys in table order:
    what pandas computes with kind='stable', and with the default
    kind='quicksort' on short tables. *)
Definition stable_sort_descending (key : row -> option Z) (l : list row)
  : list row :=
  sort_by (fun a b => key_before (key a) (key b)) l.

(** [list(df.index).index(idx)] *)
Fixpoint index_of (idx : nat) (labels : list nat) : option nat :=
  match labels with
  | [] => None
  | l :: rest =>
      if Nat.eqb l idx then Some 0%nat
      else option_map S (index_of idx rest)
  end.

(** Values of an export entry, as json.dump receives them. *)
Inductive jvalue : Type :=
| JScalar (v : value)
| JVector (xs : list float).

Definition entry : Type := gmap string jvalue.

Definition doc_value (d : option string) : value :=
  match d with
  | Some s => VStr s
  | None => VNull
  end.

(** [for x in xs: out.append(f(x))], stopping at the first exception. *)
Fixpoint for_each {A B} (f : A -> result B) (xs : list A) : result (list B) :=
  match xs with
  | [] => Ok []
  | x :: rest =>
      y ← f x;
      ys ← for_each f rest;
      Ok (y :: ys)
  end.

Section ExportForEdge.
(** [pd.to_datetime(..., errors='coerce')] on one cell: the parsed
    instant, or nothing (NaT) when the cell does not parse. *)
Variable to_datetime : value -> option Z.

(** [sort_values(col, ascending=False)] on the rows, given the key of
    each row.  The default kind is quicksort, which is not stable: the
    order among equal keys is the algorithm's business. *)
Variable sort_descending : (row -> option Z) -> list row -> list row.

Definition sort_values (col : string) (df : DataFrame) : result DataFrame :=
  if decide (col ∈ columns df)
  then Ok (mk_df (columns df)
                 (sort_descending (fun r => sort_key (cell r col)) (rows df)))
  else Raise KeyError.

(** [df['published_dt'] = pd.to_datetime(df['published'], errors='coerce')] *)
Definition add_published_dt (df : DataFrame) : DataFrame :=
  set_column df "published_dt"
    (map (fun r => match to_datetime (cell r "published") with
                   | Some t => VTimestamp t
                   | None => VNull
                   end) (rows df)).

(** The body of the export loop for one selected row; [df] is the
    sorted table. *)
Definition build_entry (df : DataFrame) (embeddings : ndarray)
  (docs : list (option string)) (key_fields : list string) (r : row)
  : result entry :=
  let entry : entry :=
    list_to_map (map (fun k => (k, JScalar (cell r k)))
                     (filter (fun k => k ∈ columns df) key_fields)) in
  i ← match index_of (label r) (map label (rows df)) with
      | Some i => Ok i
      | None => Raise ValueError
      end;
  vector ← row_tolist embeddings i;
  document ← match docs !! i with
             | Some d => Ok d
             | None => Raise IndexError
             end;
  let entry :=
    <[ "vector" := match vector with
                   | inl v => JVector v
                   | inr x => JScalar (VFloat x)
                   end ]> entry in
  Ok (<[ "document" := JScalar (doc_value document) ]> entry).

Definition export_for_edge (df : DataFrame) (embeddings : ndarray)
  (docs : list (option string)) (ids : list string) (top_n : Z)
  (key_fields : option (list string)) : result (list entry) :=
  let key_fields := default default_key_fields key_fields in
  df ← drop_duplicates df;
  df ← (if decide ("published" ∈ columns df)
        then sort_values "published_dt" (add_published_dt df)
        else Ok df);
  df ← sort_values "doc_len" df;
  let selected := slice_to (rows df) top_n in
  for_each (build_entry df embeddings docs key_fields) selected.

(** [df[df['has_doc']]] *)
Definition with_documents (df : DataFrame) : result DataFrame :=
  if decide ("has_doc" ∈ columns df)
  then Ok (mk_df (columns df)
                 (filter (fun r => cell r "has_doc" = VBool true) (rows df)))
  else Raise KeyError.

(** [main] without its file and console I/O: profile the collection and
    export the records that have a document. *)
Definition main (np : numpy_release) (c : collection)
  : result (gmap string pyval * list entry) :=
  '(profile, df, embeddings, docs, ids) ← profile_collection np c;
  df ← with_documents df;
  export ← export_for_edge df embeddings docs ids 2048 None;
  Ok (profile, export).
End ExportForEdge.

End Cli.

(** * Properties *)

(** ** The stable sort *)

Section SortFacts.
Context {A : Type}.
Variable lt : A -> A -> bool.
(** The elements on which [lt] is a strict weak order. *)
Variable dom : A -> Prop.
Hypothesis lt_asym :
  forall x y, dom x -> dom y -> lt x y = true -> lt y x = false.
Hypothesis lt_negtrans :
  forall x y z, dom x -> dom y -> dom z ->
    lt x y = false -> lt y z = false -> lt x z = false.

(** No element is smaller than one before it. *)
Definition ascending : list A -> Prop :=
  StronglySorted (fun a b => lt b a = false).

(** No element is greater than one before it. *)
Definition descending : list A -> Prop :=
  StronglySorted (fun a b => lt a b = false).

(** The elements equivalent to [s]: neither smaller nor greater. *)
Definition tied (s x : A) : bool := negb (lt s x) && negb (lt x s).

Lemma insert_by_perm x l : Permutation (insert_by lt x l) (x :: l).
Proof.
  induction l as [|y l IH]; simpl; [reflexivity|].
  destruct (lt x y); [reflexivity|].
  rewrite IH. apply perm_swap.
Qed.

Lemma fold_insert_perm l acc :
  Permutation (fold_left (fun acc x => insert_by lt x acc) l acc) (acc ++ l).
Proof.
  revert acc. induction l as [|x l IH]; intros acc; simpl.
  - rewrite app_nil_r. reflexivity.
  - rewrite IH, insert_by_perm.
    change (x :: acc) with ([x] ++ acc).
    rewrite (Permutation_app_comm [x] acc), <- app_assoc. reflexivity.
Qed.

Lemma sort_by_perm l : Permutation (sort_by lt l) l.
Proof. unfold sort_by. rewrite fold_insert_perm. reflexivity. Qed.

Lemma list_sort_reverse_perm l : Permutation (list_sort_reverse lt l) l.
Proof.
  unfold list_sort_reverse.
  rewrite <- Permutation_rev, sort_by_perm, <- Permutation_rev. reflexivity.
Qed.

Lemma insert_by_dom x l : dom x -> Forall dom l -> Forall dom (insert_by lt x l).
Proof.
  intros Hx Hl. eapply Permutation_Forall.
  - symmetry. apply insert_by_perm.
  - constructor; assumption.
Qed.

Lemma insert_by_ascending x l :
  dom x -> Forall dom l -> ascending l -> ascending (insert_by lt x l).
Proof.
  intros Hx Hd Hs. induction Hs as [|y l Hs IH Hy]; simpl.
  - repeat constructor.
  - inversion Hd as [|? ? Hdy Hdl]; subst.
    destruct (lt x y) eqn:E.
    + constructor; [constructor; assumption|].
      constructor; [apply lt_asym; assumption|].
      rewrite Forall_forall in Hy, Hdl |- *. intros z Hz.
      apply (lt_negtrans z y x); auto.
    + constructor; [apply IH; assumption|].
      eapply Permutation_Forall; [symmetry; apply insert_by_perm|].
      constructor; assumption.
Qed.

Lemma fold_insert_ascending l acc :
  Forall dom l -> Forall dom acc -> ascending acc ->
  ascending (fold_left (fun acc x => insert_by lt x acc) l acc).
Proof.
  revert acc. induction l as [|x l IH]; intros acc Hl Ha Hs; simpl; [assumption|].
  inversion Hl; subst.
  apply IH; auto using insert_by_dom, insert_by_ascending.
Qed.

Lemma sort_by_ascending l : Forall dom l -> ascending (sort_by lt l).
Proof.
  intros Hl. apply fold_insert_ascending; [assumption|constructor|constructor].
Qed.

Lemma descending_snoc l x :
  descending l -> Forall (fun a => lt a x = false) l -> descending (l ++ [x]).
Proof.
  unfold descending. induction 1 as [|y l Hs IH Hy]; simpl; intros Hx.
  - repeat constructor.
  - inversion Hx; subst. constructor; [apply IH; assumption|].
    apply Forall_app. split; [assumption|]. repeat constructor. assumption.
Qed.

Lemma ascending_rev l : ascending l -> descending (rev l).
Proof.
  induction 1 as [|x l Hs IH Hx]; simpl; [constructor|].
  apply descending_snoc; [assumption|]. apply Forall_rev, Hx.
Qed.

Lemma list_sort_reverse_descending l :
  Forall dom l -> descending (list_sort_reverse lt l).
Proof.
  intros Hl. apply ascending_rev, sort_by_ascending, Forall_rev, Hl.
Qed.

Lemma tied_after s x z :
  dom s -> dom x -> dom z ->
  tied s x = true -> lt x z = true -> tied s z = false.
Proof.
  unfold tied. intros Hs Hx Hz Hsx Hxz.
  apply andb_true_iff in Hsx as [H1 H2].
  apply negb_true_iff in H1, H2.
  destruct (lt s z) eqn:E1; [reflexivity|].
  rewrite (lt_negtrans x s z) in Hxz; auto. discriminate.
Qed.

Lemma filter_none (p : A -> bool) l :
  Forall (fun z => p z = false) l -> List.filter p l = [].
Proof.
  induction 1 as [|z l Hz _ IH]; simpl; [reflexivity|]. rewrite Hz. exact IH.
Qed.

Lemma insert_by_tied s x l :
  dom s -> dom x -> Forall dom l -> ascending l ->
  List.filter (tied s) (insert_by lt x l)
  = List.filter (tied s) l ++ (if tied s x then [x] else []).
Proof.
  intros Hs Hx Hd Hsorted.
  induction Hsorted as [|y l Hsl IH Hy]; simpl; [reflexivity|].
  inversion Hd as [|? ? Hdy Hdl]; subst.
  destruct (lt x y) eqn:E.
  - simpl. destruct (tied s x) eqn:Tx.
    + assert (Hall : Forall (fun z => tied s z = false) (y :: l)).
      { constructor; [apply (tied_after s x y); auto|].
        rewrite Forall_forall in Hy, Hdl |- *. intros z Hz.
        apply (tied_after s x z); auto.
        destruct (lt x z) eqn:Ez; [reflexivity|].
        rewrite (lt_negtrans x z y) in E; auto. }
      change (if tied s y then y :: List.filter (tied s) l
              else List.filter (tied s) l)
        with (List.filter (tied s) (y :: l)).
      rewrite (filter_none _ _ Hall). reflexivity.
    + rewrite app_nil_r. reflexivity.
  - simpl. rewrite IH by assumption.
    destruct (tied s y); reflexivity.
Qed.

Lemma fold_insert_tied s l acc :
  dom s -> Forall dom l -> Forall dom acc -> ascending acc ->
  List.filter (tied s) (fold_left (fun acc x => insert_by lt x acc) l acc)
  = List.filter (tied s) acc ++ List.filter (tied s) l.
Proof.
  intros Hs. revert acc.
  induction l as [|x l IH]; intros acc Hl Ha Hsorted; simpl.
  - rewrite app_nil_r. reflexivity.
  - inversion Hl; subst.
    rewrite IH by auto using insert_by_dom, insert_by_ascending.
    rewrite insert_by_tied by assumption.
    rewrite <- app_assoc. destruct (tied s x); reflexivity.
Qed.

(** The sort is stable: it keeps the elements of every tie class in
    their original order. *)
Lemma list_sort_reverse_stable s l :
  dom s -> Forall dom l ->
  List.filter (tied s) (list_sort_reverse lt l) = List.filter (tied s) l.
Proof.
  intros Hs Hl. unfold list_sort_reverse, sort_by.
  rewrite filter_rev, fold_insert_tied; auto using Forall_rev; try constructor.
  simpl. rewrite filter_rev, rev_involutive. reflexivity.
Qed.
End SortFacts.

(** ** binary64 arithmetic and order *)

Section FloatFacts.
Local Open Scope float_scope.

Lemma float_mul_comm (x y : float) : x * y = y * x.
Proof.
  rewrite <- (SF2Prim_Prim2SF (x * y)), <- (SF2Prim_Prim2SF (y * x)).
  rewrite !mul_spec. f_equal. unfold SF64mul, SFmul.
  destruct (Prim2SF x) as [sx|sx| |sx mx ex], (Prim2SF y) as [sy|sy| |sy my ey];
    try reflexivity; try (rewrite (xorb_comm sx sy); reflexivity).
  rewrite (Pos.mul_comm mx my), (Z.add_comm ex ey), (xorb_comm sx sy).
  reflexivity.
Qed.

(** An order-preserving key for the numbers (everything but NaN):
    sign class, then exponent, then mantissa. *)
Definition sf_rank (f : spec_float) : Z * Z * Z :=
  match f with
  | S754_zero _ => (0, 0, 0)%Z
  | S754_infinity false => (2, 0, 0)%Z
  | S754_infinity true => (-2, 0, 0)%Z
  | S754_nan => (3, 0, 0)%Z
  | S754_finite false m e => (1, e, Z.pos m)%Z
  | S754_finite true m e => (-1, - e, Z.neg m)%Z
  end.

Definition lex3 (p q : Z * Z * Z) : comparison :=
  let '(a, b, c) := p in
  let '(a', b', c') := q in
  match (a ?= a')%Z with
  | Eq => match (b ?= b')%Z with
          | Eq => (c ?= c')%Z
          | r => r
          end
  | r => r
  end.

Definition lt3 (p q : Z * Z * Z) : Prop :=
  let '(a, b, c) := p in
  let '(a', b', c') := q in
  (a < a' \/ (a = a' /\ (b < b' \/ (b = b' /\ c < c'))))%Z.

Lemma lex3_Lt p q : lex3 p q = Lt <-> lt3 p q.
Proof.
  destruct p as [[a b] c], q as [[a' b'] c']. unfold lex3, lt3.
  destruct (Z.compare_spec a a'), (Z.compare_spec b b'), (Z.compare_spec c c');
    split; intros; try discriminate; try reflexivity; lia.
Qed.

Lemma lex3_Gt p q : lex3 p q = Gt <-> lt3 q p.
Proof.
  destruct p as [[a b] c], q as [[a' b'] c']. unfold lex3, lt3.
  destruct (Z.compare_spec a a'), (Z.compare_spec b b'), (Z.compare_spec c c');
    split; intros; try discriminate; try reflexivity; lia.
Qed.

Lemma lex3_Eq p q : lex3 p q = Eq <-> p = q.
Proof.
  destruct p as [[a b] c], q as [[a' b'] c']. unfold lex3.
  destruct (Z.compare_spec a a'), (Z.compare_spec b b'), (Z.compare_spec c c');
    split; intros H'; try discriminate; try reflexivity;
    try (inversion H'; lia); subst; reflexivity.
Qed.

Lemma SFcompare_rank f g :
  f <> S754_nan -> g <> S754_nan ->
  SFcompare f g = Some (lex3 (sf_rank f) (sf_rank g)).
Proof.
  intros Hf Hg.
  destruct f as [s|s| |s m e], g as [s'|s'| |s' m' e']; try congruence;
    try (destruct s; try destruct s'; reflexivity);
    try (destruct s'; reflexivity).
  destruct s, s'; try reflexivity; simpl.
  rewrite Z.compare_opp, (Z.compare_antisym e e').
  destruct (e ?= e')%Z; reflexivity.
Qed.

(** The key of a float. *)
Definition fkey (x : float) : Z * Z * Z := sf_rank (Prim2SF x).

Lemma is_nan_spec x : is_nan x = false <-> Prim2SF x <> S754_nan.
Proof.
  unfold is_nan. rewrite FloatAxioms.eqb_spec. unfold SFeqb. split.
  - intros H E. rewrite E in H. discriminate.
  - intros H. rewrite (SFcompare_rank _ _ H H).
    replace (lex3 _ _) with Eq; [reflexivity|].
    symmetry. apply lex3_Eq. reflexivity.
Qed.

Lemma compare_fkey x y :
  is_nan x = false -> is_nan y = false ->
  SFcompare (Prim2SF x) (Prim2SF y) = Some (lex3 (fkey x) (fkey y)).
Proof.
  intros Hx Hy. apply SFcompare_rank; apply is_nan_spec; assumption.
Qed.

Lemma ltb_fkey x y :
  is_nan x = false -> is_nan y = false ->
  ((x <? y) = true <-> lt3 (fkey x) (fkey y)).
Proof.
  intros Hx Hy. rewrite FloatAxioms.ltb_spec. unfold SFltb.
  rewrite (compare_fkey _ _ Hx Hy), <- lex3_Lt.
  destruct (lex3 (fkey x) (fkey y)); split; congruence.
Qed.

Lemma leb_fkey x y :
  is_nan x = false -> is_nan y = false ->
  ((x <=? y) = true <-> ~ lt3 (fkey y) (fkey x)).
Proof.
  intros Hx Hy. rewrite FloatAxioms.leb_spec. unfold SFleb.
  rewrite (compare_fkey _ _ Hx Hy), <- lex3_Gt.
  destruct (lex3 (fkey x) (fkey y)); split; congruence.
Qed.

Lemma eqb_fkey x y :
  is_nan x = false -> is_nan y = false ->
  ((x =? y) = true <-> fkey x = fkey y).
Proof.
  intros Hx Hy. rewrite FloatAxioms.eqb_spec. unfold SFeqb.
  rewrite (compare_fkey _ _ Hx Hy), <- lex3_Eq.
  destruct (lex3 (fkey x) (fkey y)); split; congruence.
Qed.

Lemma eqb_nan_l x y : is_nan x = true -> (x =? y) = false.
Proof.
  intros Hx. rewrite FloatAxioms.eqb_spec. unfold SFeqb.
  destruct (Prim2SF x) eqn:E;
    try (rewrite (proj2 (is_nan_spec x)) in Hx; [discriminate|congruence]).
  reflexivity.
Qed.

Lemma eqb_nan_r x y : is_nan y = true -> (x =? y) = false.
Proof.
  intros Hy. rewrite FloatAxioms.eqb_spec. unfold SFeqb.
  destruct (Prim2SF y) eqn:E;
    try (rewrite (proj2 (is_nan_spec y)) in Hy; [discriminate|congruence]).
  destruct (Prim2SF x); reflexivity.
Qed.

Lemma leb_nan_r x y : is_nan y = true -> (x <=? y) = false.
Proof.
  intros Hy. rewrite FloatAxioms.leb_spec. unfold SFleb.
  destruct (Prim2SF y) eqn:E;
    try (rewrite (proj2 (is_nan_spec y)) in Hy; [discriminate|congruence]).
  destruct (Prim2SF x); reflexivity.
Qed.

Lemma leb_nan_l x y : is_nan x = true -> (x <=? y) = false.
Proof.
  intros Hx. rewrite FloatAxioms.leb_spec. unfold SFleb.
  destruct (Prim2SF x) eqn:E;
    try (rewrite (proj2 (is_nan_spec x)) in Hx; [discriminate|congruence]).
  reflexivity.
Qed.
End FloatFacts.

(** ** cosine_similarity *)

Section Similarity.
Import Core.
Local Open Scope float_scope.

Lemma np_dot_comm v1 v2 : np_dot v1 v2 = np_dot v2 v1.
Proof.
  unfold np_dot. rewrite (Nat.eqb_sym (length v2)).
  destruct (Nat.eqb (length v1) (length v2)); [|reflexivity].
  f_equal. generalize 0.
  revert v2. induction v1 as [|x v1 IH]; intros [|y v2] acc; simpl;
    try reflexivity.
  rewrite (float_mul_comm x y). apply IH.
Qed.

Lemma cosine_similarity_comm v1 v2 :
  cosine_similarity v1 v2 = cosine_similarity v2 v1.
Proof.
  unfold cosine_similarity.
  rewrite (np_dot_comm v1 v2),
    (float_mul_comm (np_linalg_norm v1) (np_linalg_norm v2)).
  reflexivity.
Qed.

Lemma cosine_similarity_returns v1 v2 :
  length v1 = length v2 -> exists s, cosine_similarity v1 v2 = Ok s.
Proof.
  intros H. unfold cosine_similarity, np_dot.
  rewrite H, Nat.eqb_refl. simpl.
  destruct (_ =? 0); eauto.
Qed.

Lemma cosine_similarity_raises v1 v2 :
  length v1 <> length v2 -> cosine_similarity v1 v2 = Raise ValueError.
Proof.
  intros H. unfold cosine_similarity, np_dot.
  apply Nat.eqb_neq in H. rewrite H. reflexivity.
Qed.

(** C8: vectors of unequal lengths make the similarity call fail with
    the shape error that [np.dot] raises; no score is produced, so
    neither vector is truncated or padded. *)
Theorem cosine_similarity_shape_mismatch (v1 v2 : list float) :
  length v1 <> length v2 ->
  cosine_similarity v1 v2 = Raise ValueError
  /\ forall s, cosine_similarity v1 v2 <> Ok s.
Proof.
  intros H. unfold cosine_similarity, np_dot.
  apply Nat.eqb_neq in H. rewrite H. simpl.
  split; [reflexivity|]. intros s. discriminate.
Qed.

Lemma cosine_similarity_shape_mismatch_witness :
  length [1; 2] <> length [1; 2; 3]
  /\ cosine_similarity [1; 2] [1; 2; 3] = Raise ValueError.
Proof.
  split; [simpl; lia|].
  apply (cosine_similarity_shape_mismatch [1; 2] [1; 2; 3]). simpl. lia.
Defined.

(** C9: at the zero vector [0.0] against [1e200] (both of length one)
    the first magnitude is zero, the second overflows to infinity, the
    denominator 0 * inf is NaN, the test [denom == 0] fails and the
    function returns NaN, not 0.0. *)
Theorem cosine_similarity_zero_magnitude_nan :
  (np_linalg_norm [0] =? 0) = true
  /\ length [0] = length [0x1.4e718d7d7625ap+664]
  /\ np_linalg_norm [0x1.4e718d7d7625ap+664] = infinity
  /\ cosine_similarity [0] [0x1.4e718d7d7625ap+664] = Ok nan.
Proof. repeat split; vm_compute; reflexivity. Qed.

(** C10: the similarity of two vectors of equal length does not depend
    on the order of the arguments. *)
Theorem cosine_similarity_symmetric (a b : list float) :
  length a = length b ->
  cosine_similarity a b = cosine_similarity b a.
Proof. intros _. apply cosine_similarity_comm. Qed.

Lemma cosine_similarity_symmetric_witness :
  length [1; 2] = length [3; 4]
  /\ cosine_similarity [1; 2] [3; 4] = cosine_similarity [3; 4] [1; 2].
Proof.
  split; [reflexivity|].
  apply (cosine_similarity_symmetric [1; 2] [3; 4]). reflexivity.
Defined.
End Similarity.

(** ** profile_collection *)

Section Profiling.
Import Cli.

(** The batch has vectors of more than one length. *)
Definition ragged (c : collection) : Prop :=
  homogeneous (map item_embedding (coll_items c)) = false.

Lemma profile_collection_empty np name :
  profile_collection np (mk_collection name [])
  = Ok (∅, empty_frame, Array1 [], [], []).
Proof. reflexivity. Qed.

(** C3 (as the code has it): on the empty batch the profiler returns,
    without raising, the empty dict: it has no num_records entry and no
    embedding_dim entry; the table, the array, the documents and the ids
    are empty as well. *)
Theorem profile_collection_empty_dict (np : numpy_release) (name : string) :
  exists profile df,
    profile_collection np (mk_collection name [])
    = Ok (profile, df, Array1 [], [], [])
    /\ profile = ∅
    /\ profile !! "num_records" = None
    /\ profile !! "embedding_dim" = None
    /\ rows df = [] /\ columns df = ∅.
Proof.
  exists ∅, empty_frame. rewrite profile_collection_empty.
  repeat split; apply lookup_empty.
Qed.

(** C3 as stated fails: the Profile returned for the empty batch does not
    carry num_records = 0. *)
Lemma profile_collection_empty_no_count :
  ~ exists profile df embeddings docs ids,
      profile_collection Numpy_1_24_or_later (mk_collection "c" [])
      = Ok (profile, df, embeddings, docs, ids)
      /\ profile !! "num_records" = Some (PInt 0).
Proof.
  intros (profile & df & embeddings & docs & ids & H & Hn).
  rewrite profile_collection_empty in H. inversion H; subst.
  rewrite lookup_empty in Hn. discriminate.
Qed.

(** With numpy 1.24 or later a ragged batch makes [np.array] raise, and
    the profiler with it. *)
Lemma profile_collection_ragged_raises c :
  coll_items c <> [] -> ragged c ->
  profile_collection Numpy_1_24_or_later c = Raise ValueError.
Proof.
  unfold ragged, profile_collection, np_array. intros Hne Hr.
  destruct (coll_items c) as [|i items]; [congruence|].
  simpl length. simpl Nat.eqb. cbv iota. rewrite Hr. reflexivity.
Qed.

(** With numpy before 1.24 the same batch is profiled, and the
    dimensionality is reported as None. *)
Lemma profile_collection_ragged_legacy c :
  coll_items c <> [] -> ragged c ->
  exists profile df embeddings docs ids,
    profile_collection Numpy_before_1_24 c
    = Ok (profile, df, embeddings, docs, ids)
    /\ profile !! "embedding_dim" = Some PNone
    /\ profile !! "num_records" = Some (PInt (Z.of_nat (length (coll_items c)))).
Proof.
  unfold ragged, profile_collection, np_array. intros Hne Hr.
  destruct (coll_items c) as [|i items] eqn:E; [congruence|].
  simpl length. simpl Nat.eqb. cbv iota. rewrite Hr.
  do 5 eexists. split; [reflexivity|]. simpl.
  split; [|apply lookup_insert_eq].
  rewrite lookup_insert_ne by discriminate. apply lookup_insert_eq.
Qed.

End Profiling.

(** ** export_for_edge: sorting and deduplication *)

Section Curation.
Import Cli.

(** What [sort_values(ascending=False)] guarantees whatever its kind: the
    rows are rearranged, keys descending, missing keys last. *)
Definition sorts_descending
  (sort : (row -> option Z) -> list row -> list row) : Prop :=
  forall key l,
    Permutation (sort key l) l
    /\ StronglySorted (fun a b => key_ge (key a) (key b)) (sort key l).

(** [r] is the first row of [l] that carries its id. *)
Definition first_occurrence (l : list row) (r : row) : Prop :=
  exists l1 l2,
    l = l1 ++ r :: l2
    /\ Forall (fun r' => cell r' "id" <> cell r "id") l1.

Lemma elem_of_map {A B} (f : A -> B) l y :
  y ∈ map f l <-> exists x, y = f x /\ x ∈ l.
Proof.
  rewrite list_elem_of_In, in_map_iff. split.
  - intros (x & <- & Hx). exists x. rewrite list_elem_of_In. auto.
  - intros (x & -> & Hx). exists x. rewrite <- list_elem_of_In. auto.
Qed.

Lemma StronglySorted_weaken {A} (R S : A -> A -> Prop) l :
  (forall a b, R a b -> S a b) -> StronglySorted R l -> StronglySorted S l.
Proof.
  intros HRS. induction 1 as [|x l Hs IH Hx]; constructor; [assumption|].
  eapply Forall_impl; [exact Hx|]. intros b. apply HRS.
Qed.

Lemma key_before_ge a b : key_before b a = false <-> key_ge a b.
Proof.
  destruct a as [x|], b as [y|]; simpl.
  - apply Z.ltb_ge.
  - split; [intros _; exact I|reflexivity].
  - split; [discriminate|intros []].
  - split; [intros _; exact I|reflexivity].
Qed.

Lemma stable_sort_descending_sorts : sorts_descending stable_sort_descending.
Proof.
  intros key l. unfold stable_sort_descending. split.
  - apply sort_by_perm.
  - eapply StronglySorted_weaken;
      [|apply (sort_by_ascending _ (fun _ => True))].
    + intros a b H. simpl in H. apply key_before_ge. exact H.
    + intros x y _ _. destruct (key x) as [a|], (key y) as [b|]; simpl;
        try congruence. rewrite Z.ltb_lt, Z.ltb_ge. lia.
    + intros x y z _ _ _.
      destruct (key x) as [a|], (key y) as [b|], (key z) as [c|]; simpl;
        try congruence. rewrite !Z.ltb_ge. lia.
    + apply Forall_forall. intros; exact I.
Qed.

Lemma drop_duplicates_from_elem seen l r :
  r ∈ drop_duplicates_from seen l -> r ∈ l /\ cell r "id" ∉ seen.
Proof.
  revert seen. induction l as [|r0 l IH]; intros seen; simpl.
  - intros H. inversion H.
  - destruct (decide (cell r0 "id" ∈ seen)) as [Hin|Hnin].
    + intros H. apply IH in H as [H1 H2]. split; [right; exact H1|exact H2].
    + intros H. apply elem_of_cons in H as [->|H].
      * split; [left|exact Hnin].
      * apply IH in H as [H1 H2]. split; [right; exact H1|].
        intros Hs. apply H2. right. exact Hs.
Qed.

Lemma drop_duplicates_from_NoDup seen l :
  NoDup (map (fun r => cell r "id") (drop_duplicates_from seen l)).
Proof.
  revert seen. induction l as [|r0 l IH]; intros seen; simpl.
  - constructor.
  - destruct (decide (cell r0 "id" ∈ seen)); [apply IH|].
    simpl. apply NoDup_cons. split; [|apply IH].
    intros H. apply elem_of_map in H as (r & Hid & Hr).
    apply drop_duplicates_from_elem in Hr as [_ Hr].
    apply Hr. simpl in Hid. rewrite <- Hid. left.
Qed.

Lemma drop_duplicates_from_covers seen l r :
  r ∈ l ->
  cell r "id" ∈ seen
  \/ cell r "id" ∈ map (fun r => cell r "id") (drop_duplicates_from seen l).
Proof.
  revert seen. induction l as [|r0 l IH]; intros seen Hr; simpl.
  - inversion Hr.
  - apply elem_of_cons in Hr as [->|Hr].
    + destruct (decide (cell r0 "id" ∈ seen)); [left; assumption|].
      right. simpl. left.
    + destruct (decide (cell r0 "id" ∈ seen)); [apply IH; assumption|].
      destruct (IH (cell r0 "id" :: seen) Hr) as [H|H].
      * apply elem_of_cons in H as [H|H]; [|left; exact H].
        right. simpl. rewrite H. left.
      * right. simpl. right. exact H.
Qed.

Lemma drop_duplicates_from_first seen l r :
  r ∈ drop_duplicates_from seen l -> first_occurrence l r.
Proof.
  revert seen. induction l as [|r0 l IH]; intros seen; simpl.
  - intros H. inversion H.
  - destruct (decide (cell r0 "id" ∈ seen)) as [Hin|Hnin]; intros H.
    + pose proof (drop_duplicates_from_elem _ _ _ H) as [_ Hr].
      destruct (IH _ H) as (l1 & l2 & -> & Hl1).
      exists (r0 :: l1), l2. split; [reflexivity|].
      constructor; [|exact Hl1]. intros E. apply Hr. rewrite <- E. exact Hin.
    + apply elem_of_cons in H as [->|H].
      * exists [], l. split; [reflexivity|constructor].
      * pose proof (drop_duplicates_from_elem _ _ _ H) as [_ Hr].
        destruct (IH _ H) as (l1 & l2 & -> & Hl1).
        exists (r0 :: l1), l2. split; [reflexivity|].
        constructor; [|exact Hl1]. intros E. apply Hr. rewrite <- E. left.
Qed.

Lemma drop_duplicates_from_length seen l :
  (length (drop_duplicates_from seen l) <= length l)%nat.
Proof.
  revert seen. induction l as [|r0 l IH]; intros seen; simpl; [lia|].
  destruct (decide _); simpl; [specialize (IH seen)|specialize (IH (cell r0 "id" :: seen))]; lia.
Qed.
End Curation.

(** ** top_similar_vectors *)

Section Ranking.
Import Core.
Local Open Scope float_scope.

(** The score [top_similar_vectors] gives a record whose vector has the
    length of the query. *)
Definition similarity_score (query : list float) (r : record) : float :=
  match cosine_similarity query (rec_vector r) with
  | Ok s => s
  | Raise _ => nan
  end.

(** The records are ranked: no score is below a later one. *)
Definition ranked_non_increasing (query : list float) : list record -> Prop :=
  StronglySorted
    (fun a b => (similarity_score query b <=? similarity_score query a) = true).

Lemma lt3_asym p q : lt3 p q -> ~ lt3 q p.
Proof.
  destruct p as [[a b] c], q as [[a' b'] c']. unfold lt3. lia.
Qed.

Lemma lt3_negtrans p q r : ~ lt3 p q -> ~ lt3 q r -> ~ lt3 p r.
Proof.
  destruct p as [[a b] c], q as [[a' b'] c'], r as [[a'' b''] c''].
  unfold lt3. lia.
Qed.

Lemma lt3_tied p q : ~ lt3 p q -> ~ lt3 q p -> p = q.
Proof.
  destruct p as [[a b] c], q as [[a' b'] c']. unfold lt3. intros H1 H2.
  assert (a = a') by lia. assert (b = b') by lia. assert (c = c') by lia.
  congruence.
Qed.

Lemma lt3_irrefl p : ~ lt3 p p.
Proof. destruct p as [[a b] c]. unfold lt3. lia. Qed.

Lemma ltb_false_fkey x y :
  is_nan x = false -> is_nan y = false ->
  ((x <? y) = false <-> ~ lt3 (fkey x) (fkey y)).
Proof.
  intros Hx Hy. rewrite <- (ltb_fkey x y Hx Hy).
  destruct (x <? y); split; congruence.
Qed.

Lemma float_ltb_asym x y :
  is_nan x = false -> is_nan y = false -> (x <? y) = true -> (y <? x) = false.
Proof.
  intros Hx Hy H. apply ltb_false_fkey; auto.
  apply lt3_asym, ltb_fkey; auto.
Qed.

Lemma float_ltb_negtrans x y z :
  is_nan x = false -> is_nan y = false -> is_nan z = false ->
  (x <? y) = false -> (y <? z) = false -> (x <? z) = false.
Proof.
  intros Hx Hy Hz H1 H2. apply ltb_false_fkey; auto.
  apply (lt3_negtrans _ (fkey y)); apply ltb_false_fkey; auto.
Qed.

Lemma float_ltb_false_leb x y :
  is_nan x = false -> is_nan y = false -> (x <? y) = false -> (y <=? x) = true.
Proof.
  intros Hx Hy H. apply leb_fkey; auto. apply ltb_false_fkey; auto.
Qed.

Lemma float_tied_eqb s x :
  is_nan s = false -> is_nan x = false ->
  negb (s <? x) && negb (x <? s) = (x =? s).
Proof.
  intros Hs Hx.
  destruct (x =? s) eqn:E.
  - apply eqb_fkey in E; auto.
    assert (H1 : (s <? x) = false)
      by (apply ltb_false_fkey; auto; rewrite E; apply lt3_irrefl).
    assert (H2 : (x <? s) = false)
      by (apply ltb_false_fkey; auto; rewrite E; apply lt3_irrefl).
    rewrite H1, H2. reflexivity.
  - destruct (s <? x) eqn:E1; [reflexivity|].
    destruct (x <? s) eqn:E2; [reflexivity|]. exfalso.
    apply ltb_false_fkey in E1, E2; auto.
    assert (Hk : fkey x = fkey s) by (apply lt3_tied; assumption).
    apply eqb_fkey in Hk; auto. congruence.
Qed.

(** The comparison handed to the sort, and the pairs it orders. *)
Definition score_lt (x y : float * record) : bool := fst x <? fst y.

Definition has_score (p : float * record) : Prop := is_nan (fst p) = false.

Definition scored_pairs (query : list float) (records : list record)
  : list (float * record) :=
  map (fun r => (similarity_score query r, r)) records.

Lemma score_lt_asym x y :
  has_score x -> has_score y -> score_lt x y = true -> score_lt y x = false.
Proof. apply float_ltb_asym. Qed.

Lemma score_lt_negtrans x y z :
  has_score x -> has_score y -> has_score z ->
  score_lt x y = false -> score_lt y z = false -> score_lt x z = false.
Proof. apply float_ltb_negtrans. Qed.

Lemma score_records_ok query records :
  Forall (fun r => length (rec_vector r) = length query) records ->
  score_records query records = Ok (scored_pairs query records).
Proof.
  induction 1 as [|r records Hr _ IH]; simpl; [reflexivity|].
  unfold similarity_score.
  destruct (cosine_similarity_returns query (rec_vector r)) as [s Hs];
    [congruence|].
  rewrite Hs, IH. reflexivity.
Qed.

Lemma score_records_raises query records :
  Exists (fun r => length (rec_vector r) <> length query) records ->
  score_records query records = Raise ValueError.
Proof.
  induction records as [|r records IH]; intros H; [inversion H|].
  simpl.
  destruct (Nat.eq_dec (length query) (length (rec_vector r))) as [E|E].
  - destruct (cosine_similarity_returns _ _ E) as [s Hs]. rewrite Hs. simpl.
    rewrite IH; [reflexivity|].
    inversion H; subst; [congruence|assumption].
  - rewrite (cosine_similarity_raises query (rec_vector r) E). reflexivity.
Qed.

Lemma slice_to_map {A B} (f : A -> B) (l : list A) k :
  map f (slice_to l k) = slice_to (map f l) k.
Proof.
  unfold slice_to. rewrite length_map.
  destruct (k <? 0)%Z; symmetry; apply firstn_map.
Qed.

Lemma top_similar_vectors_eq query records k :
  Forall (fun r => length (rec_vector r) = length query) records ->
  top_similar_vectors query records k
  = Ok (slice_to (map snd (list_sort_reverse score_lt
                             (scored_pairs query records))) k).
Proof.
  intros H. unfold top_similar_vectors. rewrite (score_records_ok _ _ H).
  simpl. rewrite slice_to_map. reflexivity.
Qed.

Lemma scored_pairs_snd query records :
  map snd (scored_pairs query records) = records.
Proof.
  unfold scored_pairs. rewrite map_map. simpl. apply map_id.
Qed.

Lemma scored_pairs_fst query records :
  Forall (fun p => fst p = similarity_score query (snd p))
         (scored_pairs query records).
Proof.
  unfold scored_pairs. apply Forall_forall. intros p Hp.
  apply elem_of_map in Hp as (r & -> & _). reflexivity.
Qed.

Lemma scored_pairs_has_score query records :
  Forall (fun r => is_nan (similarity_score query r) = false) records ->
  Forall has_score (scored_pairs query records).
Proof.
  intros H. unfold scored_pairs. apply Forall_forall. intros p Hp.
  apply elem_of_map in Hp as (r & -> & Hr).
  rewrite Forall_forall in H. apply H, Hr.
Qed.

Lemma descending_ranked query l :
  Forall (fun p => fst p = similarity_score query (snd p)) l ->
  Forall has_score l ->
  descending score_lt l ->
  ranked_non_increasing query (map snd l).
Proof.
  intros Hf Hd Hs. induction Hs as [|p l Hs IH Hp]; simpl; [constructor|].
  inversion Hf as [|? ? Hfp Hfl]; inversion Hd as [|? ? Hdp Hdl]; subst.
  constructor; [apply IH; assumption|].
  apply Forall_forall. intros r Hr. apply elem_of_map in Hr as (q & -> & Hq).
  rewrite Forall_forall in Hp, Hfl, Hdl.
  rewrite <- Hfp, <- (Hfl q Hq).
  apply float_ltb_false_leb; [exact Hdp|apply Hdl, Hq|apply Hp, Hq].
Qed.

Lemma filter_map_snd {A B} (f : B -> bool) (l : list (A * B)) :
  List.filter f (map snd l) = map snd (List.filter (fun p => f (snd p)) l).
Proof.
  induction l as [|p l IH]; simpl; [reflexivity|].
  destruct (f (snd p)); simpl; rewrite IH; reflexivity.
Qed.

Lemma filter_score_tied query s r0 l :
  is_nan s = false ->
  Forall (fun p => fst p = similarity_score query (snd p)) l ->
  Forall has_score l ->
  List.filter (fun p => similarity_score query (snd p) =? s) l
  = List.filter (tied score_lt (s, r0)) l.
Proof.
  intros Hs Hf Hd. apply filter_ext_in. intros p Hp.
  rewrite Forall_forall in Hf, Hd. apply list_elem_of_In in Hp.
  rewrite <- (Hf p Hp). unfold tied, score_lt. simpl.
  symmetry. apply float_tied_eqb; [exact Hs|apply Hd, Hp].
Qed.

Lemma slice_to_length {A} (l : list A) k :
  length (slice_to l k)
  = if (k <? 0)%Z then Z.to_nat (Z.of_nat (length l) + k)
    else Nat.min (Z.to_nat k) (length l).
Proof.
  unfold slice_to. destruct (k <? 0)%Z eqn:E; rewrite length_firstn; [|reflexivity].
  apply Z.ltb_lt in E. lia.
Qed.

Lemma slice_to_all {A} (l : list A) k :
  (Z.of_nat (length l) <= k)%Z -> slice_to l k = l.
Proof.
  intros H. unfold slice_to.
  destruct (k <? 0)%Z eqn:E; [apply Z.ltb_lt in E; lia|].
  apply firstn_all2. lia.
Qed.

(** When every record has the length of the query and no score is NaN,
    the call returns the first [top_k] records of a ranking of the whole
    batch: a rearrangement of the records in which no score is below a
    later one. *)
Theorem top_similar_vectors_ranked (query : list float)
  (records : list record) (top_k : Z) :
  Forall (fun r => length (rec_vector r) = length query) records ->
  Forall (fun r => is_nan (similarity_score query r) = false) records ->
  exists ranked,
    top_similar_vectors query records top_k = Ok (slice_to ranked top_k)
    /\ Permutation ranked records
    /\ ranked_non_increasing query ranked.
Proof.
  intros Hlen Hnan.
  exists (map snd (list_sort_reverse score_lt (scored_pairs query records))).
  split; [apply top_similar_vectors_eq, Hlen|]. split.
  - rewrite <- (scored_pairs_snd query records) at 2.
    apply Permutation_map, list_sort_reverse_perm.
  - apply descending_ranked.
    + eapply Permutation_Forall;
        [symmetry; apply list_sort_reverse_perm|apply scored_pairs_fst].
    + eapply Permutation_Forall;
        [symmetry; apply list_sort_reverse_perm|].
      apply scored_pairs_has_score, Hnan.
    + apply (list_sort_reverse_descending score_lt has_score).
      * apply score_lt_asym.
      * apply score_lt_negtrans.
      * apply scored_pairs_has_score, Hnan.
Qed.

(** Under the same conditions the ranking is stable: the records that
    share a score keep their batch order. *)
Theorem top_similar_vectors_stable (query : list float)
  (records : list record) (top_k : Z) :
  Forall (fun r => length (rec_vector r) = length query) records ->
  Forall (fun r => is_nan (similarity_score query r) = false) records ->
  exists ranked,
    top_similar_vectors query records top_k = Ok (slice_to ranked top_k)
    /\ forall s,
         List.filter (fun r => similarity_score query r =? s) ranked
         = List.filter (fun r => similarity_score query r =? s) records.
Proof.
  intros Hlen Hnan.
  exists (map snd (list_sort_reverse score_lt (scored_pairs query records))).
  split; [apply top_similar_vectors_eq, Hlen|]. intros s.
  destruct (is_nan s) eqn:Hs.
  - rewrite !filter_none; [reflexivity| |];
      apply Forall_forall; intros r _; apply eqb_nan_r, Hs.
  - pose proof (scored_pairs_has_score _ _ Hnan) as Hd.
    rewrite <- (scored_pairs_snd query records) at 2.
    rewrite !filter_map_snd. f_equal.
    rewrite (filter_score_tied query s (mk_record "" []));
      [|exact Hs
       |eapply Permutation_Forall;
          [symmetry; apply list_sort_reverse_perm|apply scored_pairs_fst]
       |eapply Permutation_Forall;
          [symmetry; apply list_sort_reverse_perm|exact Hd]].
    rewrite (filter_score_tied query s (mk_record "" []));
      [|exact Hs|apply scored_pairs_fst|exact Hd].
    apply (list_sort_reverse_stable score_lt has_score).
    + apply score_lt_asym.
    + apply score_lt_negtrans.
    + exact Hs.
    + exact Hd.
Qed.

(** Whatever the scores, a call that returns gives back records of the
    batch only: the result is a prefix of a rearrangement of the batch. *)
Theorem top_similar_vectors_from_batch (query : list float)
  (records : list record) (top_k : Z) (out : list record) :
  top_similar_vectors query records top_k = Ok out ->
  exists ranked, Permutation ranked records /\ out = slice_to ranked top_k.
Proof.
  unfold top_similar_vectors. intros H.
  destruct (score_records query records) as [scored|e] eqn:E; [|discriminate].
  simpl in H. inversion H; subst. clear H.
  assert (Hsnd : map snd scored = records).
  { clear top_k. revert scored E.
    induction records as [|r records IH]; simpl; intros scored E.
    - inversion E. reflexivity.
    - destruct (cosine_similarity query (rec_vector r)); [|discriminate].
      simpl in E. destruct (score_records query records); [|discriminate].
      simpl in E. inversion E; subst. simpl. f_equal. apply IH. reflexivity. }
  exists (map snd (list_sort_reverse (fun x y => fst x <? fst y) scored)).
  split; [|apply slice_to_map].
  rewrite <- Hsnd. apply Permutation_map, list_sort_reverse_perm.
Qed.

(** The number of records returned: [top_k] of them, all of them when
    [top_k] exceeds the batch, and for a negative [top_k] all but the
    last [-top_k] of the ranking. *)
Theorem top_similar_vectors_length (query : list float)
  (records : list record) (top_k : Z) :
  Forall (fun r => length (rec_vector r) = length query) records ->
  exists out,
    top_similar_vectors query records top_k = Ok out
    /\ length out
       = if (top_k <? 0)%Z
         then Z.to_nat (Z.of_nat (length records) + top_k)
         else Nat.min (Z.to_nat top_k) (length records).
Proof.
  intros Hlen. eexists. split; [apply top_similar_vectors_eq, Hlen|].
  rewrite slice_to_length, length_map.
  rewrite (Permutation_length (list_sort_reverse_perm score_lt _)).
  unfold scored_pairs. rewrite length_map. reflexivity.
Qed.

(** The call raises the shape error exactly when some record's vector
    differs in length from the query. *)
Theorem top_similar_vectors_raises_iff (query : list float)
  (records : list record) (top_k : Z) :
  top_similar_vectors query records top_k = Raise ValueError
  <-> Exists (fun r => length (rec_vector r) <> length query) records.
Proof.
  split.
  - intros H.
    destruct (decide (Exists (fun r => length (rec_vector r) <> length query)
                        records)) as [Hex|Hno]; [exact Hex|].
    exfalso. rewrite top_similar_vectors_eq in H; [discriminate|].
    apply Forall_forall. intros r Hr.
    destruct (Nat.eq_dec (length (rec_vector r)) (length query)) as [E|E];
      [exact E|].
    exfalso. apply Hno. apply Exists_exists. exists r. split; assumption.
  - intros H. unfold top_similar_vectors.
    rewrite (score_records_raises _ _ H). reflexivity.
Qed.
End Ranking.

Section RankingWitnesses.
Import Core.
Local Open Scope float_scope.

Definition sample_query : list float := [1; 0].

Definition sample_records : list record :=
  [mk_record "a" [0; 1]; mk_record "b" [2; 0];
   mk_record "c" [0; 3]; mk_record "d" [1; 0]].

Lemma top_similar_vectors_ranked_witness :
  exists ranked,
    top_similar_vectors sample_query sample_records 3
    = Ok (slice_to ranked 3)
    /\ Permutation ranked sample_records
    /\ ranked_non_increasing sample_query ranked.
Proof.
  apply (top_similar_vectors_ranked sample_query sample_records 3);
    repeat constructor.
Defined.

Lemma top_similar_vectors_stable_witness :
  exists ranked,
    top_similar_vectors sample_query sample_records 3
    = Ok (slice_to ranked 3)
    /\ forall s,
         List.filter (fun r => similarity_score sample_query r =? s) ranked
         = List.filter (fun r => similarity_score sample_query r =? s)
             sample_records.
Proof.
  apply (top_similar_vectors_stable sample_query sample_records 3);
    repeat constructor.
Defined.

Lemma top_similar_vectors_from_batch_witness :
  exists ranked,
    Permutation ranked sample_records
    /\ [mk_record "b" [2; 0]; mk_record "d" [1; 0]; mk_record "a" [0; 1]]
       = slice_to ranked 3.
Proof.
  apply (top_similar_vectors_from_batch sample_query sample_records 3).
  vm_compute. reflexivity.
Defined.

Lemma top_similar_vectors_length_witness :
  exists out,
    top_similar_vectors sample_query sample_records (-1) = Ok out
    /\ length out = 3%nat.
Proof.
  apply (top_similar_vectors_length sample_query sample_records (-1)).
  repeat constructor.
Defined.
End RankingWitnesses.

(** ** cosine_similarity of a zero vector *)

Section ZeroVector.
Import Core.
Local Open Scope float_scope.

Lemma norm_zero_vector n : np_linalg_norm (repeat 0 n) = 0.
Proof.
  unfold np_linalg_norm.
  assert (H : fold_left (fun acc x => acc + x * x) (repeat 0 n) 0 = 0).
  { induction n as [|n IH]; simpl; [reflexivity|]. exact IH. }
  rewrite H. reflexivity.
Qed.

Lemma finite_not_infinity y s :
  Prim2SF y = S754_infinity s -> is_finite y = false.
Proof.
  intros E. unfold is_finite, is_infinity.
  rewrite FloatAxioms.eqb_spec, abs_spec, E. simpl.
  apply negb_false_iff, orb_true_r.
Qed.

Lemma mul_zero_finite y :
  is_finite y = true -> (0 * y =? 0) = true /\ (y * 0 =? 0) = true.
Proof.
  intros Hy. rewrite !FloatAxioms.eqb_spec, !mul_spec.
  change (Prim2SF 0) with (S754_zero false).
  destruct (Prim2SF y) as [s|s| |s m e] eqn:E.
  - split; reflexivity.
  - rewrite (finite_not_infinity y s E) in Hy. discriminate.
  - assert (Hn : is_nan y = true).
    { destruct (is_nan y) eqn:N; [reflexivity|].
      apply is_nan_spec in N. contradiction. }
    unfold is_finite in Hy. rewrite Hn in Hy. discriminate.
  - split; reflexivity.
Qed.

(** The guard on the denominator: a zero vector scores exactly 0.0, on
    either side, against every vector of its length whose norm is finite. *)
Theorem cosine_similarity_zero_vector (n : nat) (v : list float) :
  length v = n ->
  is_finite (np_linalg_norm v) = true ->
  cosine_similarity (repeat 0 n) v = Ok 0
  /\ cosine_similarity v (repeat 0 n) = Ok 0.
Proof.
  intros Hlen Hfin.
  destruct (mul_zero_finite _ Hfin) as [H1 H2].
  unfold cosine_similarity, np_dot.
  rewrite !repeat_length, Hlen, Nat.eqb_refl. simpl.
  rewrite norm_zero_vector, H1, H2. split; reflexivity.
Qed.

Lemma cosine_similarity_zero_vector_witness :
  cosine_similarity (repeat 0 2%nat) [1; 2] = Ok 0
  /\ cosine_similarity [1; 2] (repeat 0 2%nat) = Ok 0.
Proof.
  apply (cosine_similarity_zero_vector 2 [1; 2]); reflexivity.
Defined.
End ZeroVector.

(** ** profile_collection on a non-empty batch *)

Section ProfileFacts.
Import Cli.

(** The number of times [k] occurs in [ids]: [Counter(ids)[k]]. *)
Definition occurrences (k : string) (ids : list string) : nat :=
  length (filter (fun x => x = k) ids).

(** The cells of the row built for the [i]-th item, before the derived
    columns has_doc and doc_len are added. *)
Definition base_cells (with_norm : bool) (it : item) : gmap string value :=
  let m := <[ "id" := VStr (item_id it) ]> (item_metadata it) in
  if with_norm
  then <[ "embedding_norm" := VFloat (Core.np_linalg_norm (item_embedding it)) ]> m
  else m.

Definition profile_row (with_norm : bool) (i : nat) (it : item) : row :=
  mk_row i
    (<[ "doc_len" := VInt (doc_len_of (item_document it)) ]>
       (<[ "has_doc" := VBool (has_doc_of (item_document it)) ]>
          (base_cells with_norm it))).

Lemma set_column_rows df (g : nat -> item -> row) (h : item -> value)
  col items :
  rows df = imap g items ->
  rows (set_column df col (map h items))
  = imap (fun i it => mk_row (label (g i it)) (<[ col := h it ]> (cells (g i it))))
         items.
Proof.
  unfold set_column. simpl. intros ->. revert g.
  induction items as [|it items IH]; intros g; [reflexivity|].
  simpl. f_equal. apply IH.
Qed.

Lemma frame_of_dicts_rows items :
  rows (frame_of_dicts (map item_metadata items))
  = imap (fun i it => mk_row i (item_metadata it)) items.
Proof.
  unfold frame_of_dicts. simpl.
  change (map item_metadata items) with (item_metadata <$> items).
  rewrite imap_fmap. reflexivity.
Qed.

Lemma profile_collection_inv np c profile df embeddings docs ids :
  coll_items c <> [] ->
  profile_collection np c = Ok (profile, df, embeddings, docs, ids) ->
  np_array np (map item_embedding (coll_items c)) = Ok embeddings
  /\ ids = map item_id (coll_items c)
  /\ docs = map item_document (coll_items c)
  /\ rows df = imap (profile_row (Nat.eqb (ndim embeddings) 2)) (coll_items c)
  /\ profile !! "num_records" = Some (PInt (Z.of_nat (length (coll_items c))))
  /\ profile !! "embedding_dim"
     = Some (if Nat.eqb (ndim embeddings) 2
             then PInt (Z.of_nat (shape1 embeddings)) else PNone)
  /\ profile !! "unique_ids" = Some (PInt (Z.of_nat (length (unique_ids ids))))
  /\ profile !! "duplicate_ids" = Some (PStrs (duplicate_ids ids)).
Proof.
  intros Hne H. unfold profile_collection in H.
  destruct (coll_items c) as [|it0 items] eqn:Hitems; [congruence|].
  remember (it0 :: items) as all eqn:Hall.
  assert (Hn : Nat.eqb (length all) 0 = false) by (subst all; reflexivity).
  rewrite Hn in H.
  destruct (np_array np (map item_embedding all)) as [emb|e]; [|discriminate].
  simpl in H. inversion H; subst profile df embeddings docs ids. clear H.
  split; [reflexivity|]. split; [reflexivity|]. split; [reflexivity|].
  split.
  - rewrite !map_map.
    pose proof (frame_of_dicts_rows all) as R0.
    pose proof (set_column_rows _ _ (fun it => VStr (item_id it)) "id" _ R0)
      as R1.
    destruct (Nat.eqb (ndim emb) 2).
    + pose proof (set_column_rows _ _
                    (fun it => VFloat (Core.np_linalg_norm (item_embedding it)))
                    "embedding_norm" _ R1) as R2.
      pose proof (set_column_rows _ _
                    (fun it => VBool (has_doc_of (item_document it)))
                    "has_doc" _ R2) as R3.
      rewrite (set_column_rows _ _ (fun it => VInt (doc_len_of (item_document it)))
                 "doc_len" _ R3).
      reflexivity.
    + pose proof (set_column_rows _ _
                    (fun it => VBool (has_doc_of (item_document it)))
                    "has_doc" _ R1) as R3.
      rewrite (set_column_rows _ _ (fun it => VInt (doc_len_of (item_document it)))
                 "doc_len" _ R3).
      reflexivity.
  - repeat split; simplify_map_eq; reflexivity.
Qed.

Lemma profile_collection_returns np c embeddings :
  coll_items c <> [] ->
  np_array np (map item_embedding (coll_items c)) = Ok embeddings ->
  exists profile df,
    profile_collection np c
    = Ok (profile, df, embeddings, map item_document (coll_items c),
          map item_id (coll_items c)).
Proof.
  intros Hne Harr. unfold profile_collection.
  destruct (coll_items c) as [|it0 items] eqn:Hitems; [congruence|].
  remember (it0 :: items) as all eqn:Hall.
  assert (Hn : Nat.eqb (length all) 0 = false) by (subst all; reflexivity).
  rewrite Hn, Harr. simpl. eauto.
Qed.

Lemma homogeneous_lengths v rest w :
  homogeneous (v :: rest) = true -> w ∈ v :: rest -> length w = length v.
Proof.
  simpl. intros H Hw. apply elem_of_cons in Hw as [->|Hw]; [reflexivity|].
  rewrite forallb_forall in H. apply Nat.eqb_eq, H, list_elem_of_In, Hw.
Qed.

Lemma occurrences_cons k x l :
  occurrences k (x :: l)
  = if decide (x = k) then S (occurrences k l) else occurrences k l.
Proof.
  unfold occurrences. rewrite filter_cons. destruct (decide (x = k)); reflexivity.
Qed.

Lemma occurrences_pos k l : k ∈ l <-> (0 < occurrences k l)%nat.
Proof.
  induction l as [|x l IH]; [split; [inversion 1|unfold occurrences; simpl; lia]|].
  rewrite occurrences_cons, elem_of_cons.
  destruct (decide (x = k)) as [->|Hne]; [split; [lia|auto]|].
  rewrite IH. split; [intros [H|H]; [congruence|exact H]|auto].
Qed.

Lemma NoDup_occurrences l : NoDup l <-> forall k, (occurrences k l <= 1)%nat.
Proof.
  induction l as [|x l IH].
  - split; [intros _ k; unfold occurrences; simpl; lia|constructor].
  - rewrite NoDup_cons, IH. split.
    + intros [Hx Hl] k. rewrite occurrences_cons.
      destruct (decide (x = k)) as [->|_]; [|apply Hl].
      rewrite occurrences_pos in Hx. lia.
    + intros H. split.
      * intros Hx. apply occurrences_pos in Hx.
        specialize (H x). rewrite occurrences_cons in H.
        destruct (decide (x = x)); [lia|congruence].
      * intros k. specialize (H k). rewrite occurrences_cons in H.
        destruct (decide (x = k)); lia.
Qed.

Lemma remove_dups_length_le (l : list string) :
  (length (remove_dups l) <= length l)%nat.
Proof.
  induction l as [|x l IH]; simpl; [lia|].
  destruct (decide_rel elem_of x l); simpl; lia.
Qed.

Lemma remove_dups_length_eq (l : list string) :
  length (remove_dups l) = length l <-> NoDup l.
Proof.
  induction l as [|x l IH]; simpl; [split; [constructor|reflexivity]|].
  rewrite NoDup_cons. pose proof (remove_dups_length_le l).
  destruct (decide_rel elem_of x l) as [Hin|Hnin]; simpl.
  - split; [lia|tauto].
  - rewrite <- IH. split; [intros H'; split; [exact Hnin|lia]|intros [_ H']; lia].
Qed.

Lemma duplicate_ids_elem ids k :
  k ∈ duplicate_ids ids <-> (2 <= occurrences k ids)%nat.
Proof.
  unfold duplicate_ids. rewrite list_elem_of_filter, elem_of_remove_dups.
  fold (occurrences k ids). rewrite occurrences_pos. lia.
Qed.

Lemma duplicate_ids_NoDup ids : NoDup (duplicate_ids ids).
Proof. apply NoDup_filter, NoDup_remove_dups. Qed.

Lemma duplicate_ids_nil ids : duplicate_ids ids = [] <-> NoDup ids.
Proof.
  rewrite NoDup_occurrences. split.
  - intros H k. destruct (le_lt_dec (occurrences k ids) 1) as [Hle|Hgt];
      [exact Hle|].
    assert (Hk : k ∈ duplicate_ids ids) by (apply duplicate_ids_elem; lia).
    rewrite H in Hk. inversion Hk.
  - intros H. destruct (duplicate_ids ids) as [|k ds] eqn:E; [reflexivity|].
    assert (Hk : k ∈ duplicate_ids ids) by (rewrite E; left).
    apply duplicate_ids_elem in Hk. specialize (H k). lia.
Qed.

Lemma profile_dimension (np : numpy_release) (c : collection) :
  coll_items c <> [] ->
  homogeneous (map item_embedding (coll_items c)) = true ->
  exists profile df d,
    profile_collection np c
    = Ok (profile, df, Array2 (map item_embedding (coll_items c)),
          map item_document (coll_items c), map item_id (coll_items c))
    /\ profile !! "num_records"
       = Some (PInt (Z.of_nat (length (coll_items c))))
    /\ profile !! "embedding_dim" = Some (PInt (Z.of_nat d))
    /\ forall it, it ∈ coll_items c -> length (item_embedding it) = d.
Proof.
  intros Hne Hh.
  assert (Harr : np_array np (map item_embedding (coll_items c))
                 = Ok (Array2 (map item_embedding (coll_items c))))
    by (unfold np_array; rewrite Hh; reflexivity).
  destruct (profile_collection_returns np c _ Hne Harr) as (profile & df & Hp).
  destruct (profile_collection_inv _ _ _ _ _ _ _ Hne Hp)
    as (_ & _ & _ & _ & Hn & Hd & _).
  destruct (coll_items c) as [|it0 items] eqn:Hitems; [congruence|].
  exists profile, df, (length (item_embedding it0)).
  split; [exact Hp|]. split; [exact Hn|]. split; [exact Hd|].
  intros it Hit.
  apply (homogeneous_lengths (item_embedding it0) (map item_embedding items));
    [exact Hh|].
  change (item_embedding it ∈ map item_embedding (it0 :: items)).
  apply elem_of_map. exists it. split; [reflexivity|exact Hit].
Qed.


(** Whenever the profiler returns on a non-empty batch, duplicate_ids
    lists, each once, exactly the ids that occur more than once among the
    records.  (The statement is about membership: the order of the list is
    the model's.) *)
Theorem profile_collection_duplicate_ids (np : numpy_release) (c : collection)
  profile df embeddings docs ids :
  coll_items c <> [] ->
  profile_collection np c = Ok (profile, df, embeddings, docs, ids) ->
  exists dups,
    profile !! "duplicate_ids" = Some (PStrs dups)
    /\ NoDup dups
    /\ forall k,
         k ∈ dups
         <-> (2 <= occurrences k (map item_id (coll_items c)))%nat.
Proof.
  intros Hne Hp.
  destruct (profile_collection_inv _ _ _ _ _ _ _ Hne Hp)
    as (_ & -> & _ & _ & _ & _ & _ & Hd).
  exists (duplicate_ids (map item_id (coll_items c))).
  split; [exact Hd|]. split; [apply duplicate_ids_NoDup|].
  intros k. apply duplicate_ids_elem.
Qed.

(** The counts of the profile agree with one another: unique_ids never
    exceeds num_records, and it equals num_records exactly when the ids
    are pairwise distinct, which is exactly when duplicate_ids is empty. *)
Theorem profile_collection_unique_ids (np : numpy_release) (c : collection)
  profile df embeddings docs ids :
  coll_items c <> [] ->
  profile_collection np c = Ok (profile, df, embeddings, docs, ids) ->
  exists u dups,
    profile !! "unique_ids" = Some (PInt (Z.of_nat u))
    /\ profile !! "duplicate_ids" = Some (PStrs dups)
    /\ (u <= length (coll_items c))%nat
    /\ (u = length (coll_items c) <-> NoDup ids)
    /\ (u = length (coll_items c) <-> dups = []).
Proof.
  intros Hne Hp.
  destruct (profile_collection_inv _ _ _ _ _ _ _ Hne Hp)
    as (_ & -> & _ & _ & _ & _ & Hu & Hd).
  exists (length (unique_ids (map item_id (coll_items c)))),
         (duplicate_ids (map item_id (coll_items c))).
  split; [exact Hu|]. split; [exact Hd|].
  unfold unique_ids.
  pose proof (remove_dups_length_le (map item_id (coll_items c))) as Hle.
  pose proof (remove_dups_length_eq (map item_id (coll_items c))) as Heq.
  rewrite length_map in Hle, Heq.
  split; [exact Hle|]. split; [exact Heq|].
  rewrite duplicate_ids_nil. exact Heq.
Qed.

Lemma has_doc_doc_len d : has_doc_of d = (0 <? doc_len_of d)%Z.
Proof.
  destruct d as [s|]; simpl; [|reflexivity].
  destruct (String.length s); reflexivity.
Qed.

Lemma profile_row_cells b i it :
  label (profile_row b i it) = i
  /\ cell (profile_row b i it) "id" = VStr (item_id it)
  /\ cell (profile_row b i it) "doc_len" = VInt (doc_len_of (item_document it))
  /\ cell (profile_row b i it) "has_doc" = VBool (has_doc_of (item_document it))
  /\ forall k,
       k <> "id" -> k <> "embedding_norm" -> k <> "has_doc" -> k <> "doc_len" ->
       cells (profile_row b i it) !! k = item_metadata it !! k.
Proof.
  unfold cell, profile_row, base_cells. simpl.
  destruct b; repeat split; intros; simplify_map_eq; reflexivity.
Qed.


(** In that table has_doc is True exactly on the rows whose doc_len is
    positive, and no doc_len is negative. *)
Theorem profile_collection_has_doc (np : numpy_release) (c : collection)
  profile df embeddings docs ids :
  coll_items c <> [] ->
  profile_collection np c = Ok (profile, df, embeddings, docs, ids) ->
  forall r, r ∈ rows df ->
    exists n, cell r "doc_len" = VInt n
              /\ (0 <= n)%Z
              /\ cell r "has_doc" = VBool (0 <? n)%Z.
Proof.
  intros Hne Hp r Hr.
  destruct (profile_collection_inv _ _ _ _ _ _ _ Hne Hp)
    as (_ & _ & _ & Hrows & _).
  rewrite Hrows in Hr. apply list_elem_of_lookup in Hr as [i Hi].
  rewrite list_lookup_imap in Hi.
  destruct (coll_items c !! i) as [it|]; [|discriminate].
  simpl in Hi. inversion Hi; subst r.
  destruct (profile_row_cells (Nat.eqb (ndim embeddings) 2) i it)
    as (_ & _ & Hl & Hd & _).
  exists (doc_len_of (item_document it)).
  split; [exact Hl|]. split.
  - destruct (item_document it); simpl; lia.
  - rewrite Hd, has_doc_doc_len. reflexivity.
Qed.

Definition sample_collection : collection :=
  mk_collection "advisories"
    [mk_item "a" [1%float; 0%float]
       {[ "title" := VStr "A"; "published" := VStr "2024-01-01" ]} (Some "x");
     mk_item "b" [0%float; 1%float]
       {[ "published" := VStr "2023-01-01" ]} (Some "yyy");
     mk_item "a" [1%float; 1%float] ∅ None].


Lemma profile_collection_duplicate_ids_witness :
  exists (profile : gmap string pyval) dups,
    profile !! "duplicate_ids" = Some (PStrs dups)
    /\ NoDup dups
    /\ forall k,
         k ∈ dups
         <-> (2 <= occurrences k (map item_id (coll_items sample_collection)))%nat.
Proof.
  destruct (profile_collection Numpy_1_24_or_later sample_collection)
    as [[[[[profile df] embeddings] docs] ids]|e] eqn:E;
    [|exfalso; vm_compute in E; discriminate].
  exists profile.
  apply (profile_collection_duplicate_ids Numpy_1_24_or_later sample_collection
           profile df embeddings docs ids); [discriminate|exact E].
Defined.

Lemma profile_collection_unique_ids_witness :
  exists (profile : gmap string pyval) (ids : list string) u dups,
    profile !! "unique_ids" = Some (PInt (Z.of_nat u))
    /\ profile !! "duplicate_ids" = Some (PStrs dups)
    /\ (u <= length (coll_items sample_collection))%nat
    /\ (u = length (coll_items sample_collection) <-> NoDup ids)
    /\ (u = length (coll_items sample_collection) <-> dups = []).
Proof.
  destruct (profile_collection Numpy_1_24_or_later sample_collection)
    as [[[[[profile df] embeddings] docs] ids]|e] eqn:E;
    [|exfalso; vm_compute in E; discriminate].
  exists profile, ids.
  apply (profile_collection_unique_ids Numpy_1_24_or_later sample_collection
           profile df embeddings docs ids); [discriminate|exact E].
Defined.


Lemma profile_collection_has_doc_witness :
  exists df,
    forall r, r ∈ rows df ->
      exists n, cell r "doc_len" = VInt n
                /\ (0 <= n)%Z
                /\ cell r "has_doc" = VBool (0 <? n)%Z.
Proof.
  destruct (profile_collection Numpy_1_24_or_later sample_collection)
    as [[[[[profile df] embeddings] docs] ids]|e] eqn:E;
    [|exfalso; vm_compute in E; discriminate].
  exists df.
  apply (profile_collection_has_doc Numpy_1_24_or_later sample_collection
           profile df embeddings docs ids); [discriminate|exact E].
Defined.
End ProfileFacts.

(** ** export_for_edge: the sorted table and the entries *)

Section ExportFacts.
Import Cli.
Variable to_datetime : value -> option Z.
Variable sort_descending : (row -> option Z) -> list row -> list row.
Hypothesis sort_ok : sorts_descending sort_descending.

(** The row with its published_dt cell. *)
Definition dated (r : row) : row :=
  mk_row (label r)
    (<[ "published_dt" := match to_datetime (cell r "published") with
                          | Some t => VTimestamp t
                          | None => VNull
                          end ]> (cells r)).

(** The table the export loop runs over: deduplicated, sorted by date
    when there is a published column, then sorted by doc_len. *)
Definition sorted_frame (df : DataFrame) : result DataFrame :=
  df ← drop_duplicates df;
  df ← (if decide ("published" ∈ columns df)
        then sort_values sort_descending "published_dt"
               (add_published_dt to_datetime df)
        else Ok df);
  sort_values sort_descending "doc_len" df.

(** Rows in descending order of doc_len. *)
Definition by_doc_len : list row -> Prop :=
  StronglySorted
    (fun a b => key_ge (sort_key (cell a "doc_len")) (sort_key (cell b "doc_len"))).

Lemma export_for_edge_sorted_frame df embeddings docs ids top_n key_fields :
  export_for_edge to_datetime sort_descending df embeddings docs ids top_n
    key_fields
  = df' ← sorted_frame df;
    for_each (build_entry df' embeddings docs
                (default default_key_fields key_fields))
             (slice_to (rows df') top_n).
Proof.
  unfold export_for_edge, sorted_frame.
  destruct (drop_duplicates df) as [d1|e1]; [|reflexivity]. simpl.
  destruct (decide ("published" ∈ columns d1)) as [Hp|Hp]; simpl.
  - destruct (sort_values _ "published_dt" _) as [d2|e2]; [|reflexivity].
    simpl. destruct (sort_values _ "doc_len" d2); reflexivity.
  - destruct (sort_values _ "doc_len" d1); reflexivity.
Qed.

Lemma add_published_dt_rows df :
  rows (add_published_dt to_datetime df) = map dated (rows df).
Proof.
  unfold add_published_dt, set_column. simpl.
  induction (rows df) as [|r l IH]; [reflexivity|].
  simpl. f_equal. exact IH.
Qed.

Lemma dated_cell r k : k <> "published_dt" -> cell (dated r) k = cell r k.
Proof.
  intros Hk. unfold cell, dated. simpl.
  rewrite lookup_insert_ne by congruence. reflexivity.
Qed.

Lemma sort_values_ok col df :
  col ∈ columns df ->
  sort_values sort_descending col df
  = Ok (mk_df (columns df)
          (sort_descending (fun r => sort_key (cell r col)) (rows df))).
Proof.
  intros H. unfold sort_values.
  destruct (decide (col ∈ columns df)); [reflexivity|contradiction].
Qed.

Lemma sort_values_raises col df :
  col ∉ columns df -> sort_values sort_descending col df = Raise KeyError.
Proof.
  intros H. unfold sort_values.
  destruct (decide (col ∈ columns df)); [contradiction|reflexivity].
Qed.

Lemma sorted_frame_spec df :
  "id" ∈ columns df -> "doc_len" ∈ columns df ->
  exists df' f,
    sorted_frame df = Ok df'
    /\ columns df'
       = (if decide ("published" ∈ columns df)
          then {[ "published_dt" ]} ∪ columns df else columns df)
    /\ Permutation (rows df') (map f (drop_duplicates_from [] (rows df)))
    /\ (forall r, label (f r) = label r)
    /\ (forall r k, k <> "published_dt" -> cell (f r) k = cell r k)
    /\ by_doc_len (rows df').
Proof.
  intros Hid Hlen. unfold sorted_frame, drop_duplicates.
  destruct (decide ("id" ∈ columns df)); [|contradiction]. simpl.
  destruct (decide ("published" ∈ columns df)) as [Hp|Hp]; simpl.
  - rewrite sort_values_ok by (simpl; set_solver). cbn [mbind result_bind].
    rewrite sort_values_ok by (simpl; set_solver).
    eexists _, dated. split; [reflexivity|]. cbn [rows columns].
    split; [reflexivity|].
    match goal with
    | |- Permutation (sort_descending ?k (sort_descending ?k1 ?l)) _ /\ _ =>
        destruct (sort_ok k1 l) as [P1 _];
        destruct (sort_ok k (sort_descending k1 l)) as [P2 S2]
    end.
    split; [|split; [reflexivity|split; [apply dated_cell|exact S2]]].
    rewrite P2, P1, add_published_dt_rows. reflexivity.
  - rewrite sort_values_ok by (simpl; exact Hlen). simpl.
    eexists _, (fun r => r). split; [reflexivity|]. simpl.
    split; [reflexivity|].
    match goal with
    | |- Permutation (sort_descending ?k ?l) _ /\ _ =>
        destruct (sort_ok k l) as [P2 S2]
    end.
    split; [|split; [reflexivity|split; [reflexivity|exact S2]]].
    rewrite P2, map_id. reflexivity.
Qed.

Lemma index_of_elem x ls :
  x ∈ ls ->
  exists i, index_of x ls = Some i /\ (i < length ls)%nat /\ ls !! i = Some x.
Proof.
  induction ls as [|l ls IH]; intros H; [inversion H|]. simpl.
  destruct (Nat.eqb l x) eqn:E.
  - apply Nat.eqb_eq in E. subst. exists 0%nat. repeat split. lia.
  - apply Nat.eqb_neq in E. apply elem_of_cons in H as [H|H]; [congruence|].
    destruct (IH H) as (i & Hi & Hlt & Hl). exists (S i).
    rewrite Hi. repeat split; [lia|exact Hl].
Qed.

Lemma index_of_NoDup x ls i :
  NoDup ls -> ls !! i = Some x -> index_of x ls = Some i.
Proof.
  revert i. induction ls as [|l ls IH]; intros i Hnd Hi; [discriminate|].
  apply NoDup_cons in Hnd as [Hl Hnd]. simpl.
  destruct i as [|i]; simpl in Hi.
  - inversion Hi; subst. rewrite Nat.eqb_refl. reflexivity.
  - destruct (Nat.eqb l x) eqn:E.
    + apply Nat.eqb_eq in E. subst. exfalso. apply Hl.
      apply list_elem_of_lookup. eauto.
    + rewrite (IH i Hnd Hi). reflexivity.
Qed.

Lemma for_each_Forall2 {A B} (f : A -> result B) xs ys :
  for_each f xs = Ok ys -> Forall2 (fun x y => f x = Ok y) xs ys.
Proof.
  revert ys. induction xs as [|x xs IH]; simpl; intros ys H.
  - inversion H. constructor.
  - destruct (f x) as [y|] eqn:E; [|discriminate]. simpl in H.
    destruct (for_each f xs) as [ys'|]; [|discriminate]. simpl in H.
    inversion H; subst. constructor; [exact E|apply IH; reflexivity].
Qed.

Lemma for_each_ok {A B} (f : A -> result B) (P : A -> B -> Prop) xs :
  Forall (fun x => exists y, f x = Ok y /\ P x y) xs ->
  exists ys, for_each f xs = Ok ys /\ Forall2 P xs ys.
Proof.
  induction 1 as [|x xs (y & Hy & HP) _ (ys & Hys & HF)]; simpl.
  - exists []. split; [reflexivity|constructor].
  - exists (y :: ys). rewrite Hy, Hys. split; [reflexivity|].
    constructor; assumption.
Qed.

Lemma slice_to_elem {A} (l : list A) k x : x ∈ slice_to l k -> x ∈ l.
Proof.
  unfold slice_to. intros H.
  destruct (k <? 0)%Z;
    match type of H with
    | _ ∈ firstn ?n _ => rewrite <- (firstn_skipn n l)
    end; apply elem_of_app; left; exact H.
Qed.

(** The key fields copied from a row: the comprehension
    [{k: row.get(k, None) for k in key_fields if k in row}]. *)
Definition projected (cols : gset string) (key_fields : list string) (r : row)
  : entry :=
  list_to_map (map (fun k => (k, JScalar (cell r k)))
                   (filter (fun k => k ∈ cols) key_fields)).

(** An export entry: the projected fields, then vector and document. *)
Definition entry_of (cols : gset string) (key_fields : list string) (r : row)
  (v : list float) (d : option string) : entry :=
  <[ "document" := JScalar (doc_value d) ]>
    (<[ "vector" := JVector v ]> (projected cols key_fields r)).

Lemma projected_lookup cols key_fields r k :
  projected cols key_fields r !! k
  = if decide (k ∈ key_fields /\ k ∈ cols) then Some (JScalar (cell r k))
    else None.
Proof.
  unfold projected.
  destruct (list_to_map _ !! k) as [x|] eqn:E.
  - apply elem_of_list_to_map_2 in E.
    apply elem_of_map in E as (k' & Hk & Hin). inversion Hk; subst.
    apply list_elem_of_filter in Hin as [Hc Hf].
    destruct (decide _) as [_|Hn]; [reflexivity|]. exfalso. apply Hn. tauto.
  - apply not_elem_of_list_to_map in E.
    destruct (decide _) as [[Hf Hc]|_]; [|reflexivity].
    exfalso. apply E.
    change (k ∈ map fst (map (fun k0 => (k0, JScalar (cell r k0)))
                            (filter (fun k0 => k0 ∈ cols) key_fields))).
    rewrite map_map. simpl. apply elem_of_map. exists k.
    split; [reflexivity|]. apply list_elem_of_filter. tauto.
Qed.

Lemma build_entry_ok df vs docs key_fields r i v d :
  index_of (label r) (map label (rows df)) = Some i ->
  vs !! i = Some v -> docs !! i = Some d ->
  build_entry df (Array2 vs) docs key_fields r
  = Ok (entry_of (columns df) key_fields r v d).
Proof.
  intros Hi Hv Hd. unfold build_entry. rewrite Hi. simpl.
  rewrite Hv. simpl. rewrite Hd. reflexivity.
Qed.

(** The frame and the arrays fit together: the sort columns exist and
    every row position has a vector and a document. *)
Definition exportable (df : DataFrame) (vs : list (list float))
  (docs : list (option string)) : Prop :=
  "id" ∈ columns df /\ "doc_len" ∈ columns df
  /\ (length (rows df) <= length vs)%nat
  /\ (length (rows df) <= length docs)%nat.

Lemma export_for_edge_entries df vs docs ids top_n key_fields :
  exportable df vs docs ->
  exists df' f es,
    sorted_frame df = Ok df'
    /\ columns df'
       = (if decide ("published" ∈ columns df)
          then {[ "published_dt" ]} ∪ columns df else columns df)
    /\ Permutation (rows df') (map f (drop_duplicates_from [] (rows df)))
    /\ (forall r, label (f r) = label r)
    /\ (forall r k, k <> "published_dt" -> cell (f r) k = cell r k)
    /\ by_doc_len (rows df')
    /\ export_for_edge to_datetime sort_descending df (Array2 vs) docs ids
         top_n key_fields = Ok es
    /\ Forall2
         (fun r e =>
            exists i v d,
              index_of (label r) (map label (rows df')) = Some i
              /\ vs !! i = Some v /\ docs !! i = Some d
              /\ e = entry_of (columns df')
                       (default default_key_fields key_fields) r v d)
         (slice_to (rows df') top_n) es.
Proof.
  intros (Hid & Hlen & Hvs & Hdocs).
  destruct (sorted_frame_spec df Hid Hlen)
    as (df' & f & Hsf & Hcols & Hperm & Hlab & Hcell & Hsorted).
  assert (Hn : (length (rows df') <= length (rows df))%nat).
  { rewrite (Permutation_length Hperm), length_map.
    apply drop_duplicates_from_length. }
  destruct (for_each_ok
              (build_entry df' (Array2 vs) docs
                 (default default_key_fields key_fields))
              (fun r e =>
                 exists i v d,
                   index_of (label r) (map label (rows df')) = Some i
                   /\ vs !! i = Some v /\ docs !! i = Some d
                   /\ e = entry_of (columns df')
                            (default default_key_fields key_fields) r v d)
              (slice_to (rows df') top_n)) as (es & Hes & HF).
  { apply Forall_forall. intros r Hr. apply slice_to_elem in Hr.
    assert (Hl : label r ∈ map label (rows df'))
      by (apply elem_of_map; eauto).
    destruct (index_of_elem _ _ Hl) as (i & Hi & Hlt & _).
    rewrite length_map in Hlt.
    destruct (lookup_lt_is_Some_2 vs i) as [v Hv]; [lia|].
    destruct (lookup_lt_is_Some_2 docs i) as [d Hd]; [lia|].
    eexists. split; [apply (build_entry_ok _ _ _ _ _ i v d); assumption|].
    exists i, v, d. auto. }
  exists df', f, es. rewrite export_for_edge_sorted_frame, Hsf. simpl.
  split; [reflexivity|]. repeat (split; [assumption|]). exact HF.
Qed.

Lemma entry_of_lookup cols key_fields r v d k :
  entry_of cols key_fields r v d !! k
  = if decide (k = "document") then Some (JScalar (doc_value d))
    else if decide (k = "vector") then Some (JVector v)
    else if decide (k ∈ key_fields /\ k ∈ cols) then Some (JScalar (cell r k))
    else None.
Proof.
  unfold entry_of.
  destruct (decide (k = "document")) as [->|Hd]; [apply lookup_insert_eq|].
  etransitivity; [apply lookup_insert_ne; congruence|].
  destruct (decide (k = "vector")) as [->|Hv]; [apply lookup_insert_eq|].
  etransitivity; [apply lookup_insert_ne; congruence|].
  apply projected_lookup.
Qed.

Lemma Forall2_map_l {A B C} (f : A -> B) (P : B -> C -> Prop) l es :
  Forall2 P (map f l) es -> Forall2 (fun x e => P (f x) e) l es.
Proof.
  revert es. induction l as [|x l IH]; simpl; intros es H;
    inversion H; subst; constructor; auto.
Qed.

Lemma drop_duplicates_from_labels seen l :
  NoDup (map label l) -> NoDup (map label (drop_duplicates_from seen l)).
Proof.
  revert seen. induction l as [|r l IH]; intros seen; simpl; [constructor|].
  rewrite NoDup_cons. intros [Hr Hl].
  destruct (decide _); [apply IH, Hl|]. simpl.
  apply NoDup_cons. split; [|apply IH, Hl].
  intros H. apply Hr. apply elem_of_map in H as (r' & Hlab & Hr').
  apply drop_duplicates_from_elem in Hr' as [Hr' _].
  apply elem_of_map. eauto.
Qed.

Lemma slice_to_lookup {A} (l : list A) k i x :
  slice_to l k !! i = Some x -> l !! i = Some x.
Proof.
  unfold slice_to.
  destruct (k <? 0)%Z; intros H; apply lookup_take_Some in H; tauto.
Qed.

Lemma StronglySorted_firstn {A} (R : A -> A -> Prop) n l :
  StronglySorted R l -> StronglySorted R (firstn n l).
Proof.
  intros H. revert n. induction H as [|x l Hs IH Hx]; intros [|n]; simpl;
    try constructor; [apply IH|].
  rewrite Forall_forall in Hx |- *. intros y Hy. apply Hx.
  rewrite <- (firstn_skipn n l). apply elem_of_app. left. exact Hy.
Qed.


Lemma export_first_occurrences (df : DataFrame)
  (vs : list (list float)) (docs : list (option string)) (ids : list string)
  (top_n : Z) (key_fields : option (list string)) :
  exportable df vs docs ->
  exists kept es,
    export_for_edge to_datetime sort_descending df (Array2 vs) docs ids
      top_n key_fields = Ok es
    /\ NoDup (map (fun r => cell r "id") kept)
    /\ Forall (first_occurrence (rows df)) kept
    /\ Forall2
         (fun r e =>
            forall k,
              k ∈ default default_key_fields key_fields ->
              k ∈ columns df ->
              k <> "vector" -> k <> "document" -> k <> "published_dt" ->
              e !! k = Some (JScalar (cell r k)))
         kept es
    /\ ((Z.of_nat (length (rows df)) <= top_n)%Z ->
        forall r, r ∈ rows df ->
                  cell r "id" ∈ map (fun r => cell r "id") kept).
Proof.
  intros Hx.
  destruct (export_for_edge_entries df vs docs ids top_n key_fields Hx)
    as (df' & f & es & _ & Hcols & Hperm & _ & Hcell & _ & Hes & HF).
  apply Permutation_map_inv in Hperm as (l0 & Hl0 & Hperm).
  exists (slice_to l0 top_n), es. split; [exact Hes|].
  assert (Hids : Permutation (map (fun r => cell r "id") l0)
                   (map (fun r => cell r "id")
                      (drop_duplicates_from [] (rows df))))
    by (apply Permutation_map; symmetry; exact Hperm).
  split; [|split; [|split]].
  - assert (Hnd : NoDup (map (fun r => cell r "id") l0)).
    { rewrite Hids. apply drop_duplicates_from_NoDup. }
    rewrite slice_to_map. unfold slice_to.
    destruct (top_n <? 0)%Z;
      match goal with
      | |- NoDup (firstn ?n ?l) =>
          rewrite <- (firstn_skipn n l) in Hnd;
          apply NoDup_app in Hnd; tauto
      end.
  - apply Forall_forall. intros r Hr. apply slice_to_elem in Hr.
    rewrite <- Hperm in Hr.
    apply (drop_duplicates_from_first [] _ _ Hr).
  - rewrite Hl0, <- slice_to_map in HF. apply Forall2_map_l in HF.
    eapply Forall2_impl; [exact HF|].
    intros r e (i & v & d & _ & _ & _ & ->) k Hk Hc Hv Hd Hp.
    rewrite entry_of_lookup.
    destruct (decide (k = "document")); [contradiction|].
    destruct (decide (k = "vector")); [contradiction|].
    destruct (decide (k ∈ default default_key_fields key_fields
                      /\ k ∈ columns df')) as [_|Hn].
    + rewrite (Hcell r k Hp). reflexivity.
    + exfalso. apply Hn. split; [exact Hk|]. rewrite Hcols.
      destruct (decide ("published" ∈ columns df));
        [apply elem_of_union; right; exact Hc|exact Hc].
  - intros Hn r Hr.
    assert (Hlen : (length l0 <= length (rows df))%nat).
    { rewrite <- (Permutation_length Hperm).
      apply drop_duplicates_from_length. }
    rewrite slice_to_all by lia. rewrite Hids.
    destruct (drop_duplicates_from_covers [] _ _ Hr) as [H|H];
      [inversion H|exact H].
Qed.



Lemma export_positional (df : DataFrame) (vs : list (list float))
  (docs : list (option string)) (ids : list string) (top_n : Z)
  (key_fields : option (list string)) :
  exportable df vs docs ->
  NoDup (map label (rows df)) ->
  exists es,
    export_for_edge to_datetime sort_descending df (Array2 vs) docs ids
      top_n key_fields = Ok es
    /\ forall i e,
         es !! i = Some e ->
         exists v d,
           vs !! i = Some v /\ docs !! i = Some d
           /\ e !! "vector" = Some (JVector v)
           /\ e !! "document" = Some (JScalar (doc_value d)).
Proof.
  intros Hx Hnd.
  destruct (export_for_edge_entries df vs docs ids top_n key_fields Hx)
    as (df' & f & es & _ & _ & Hperm & Hlab & _ & _ & Hes & HF).
  exists es. split; [exact Hes|]. intros i e Hi.
  destruct (Forall2_lookup_r _ _ _ _ _ HF Hi)
    as (r & Hr & j & v & d & Hj & Hv & Hd & ->).
  assert (Hnd' : NoDup (map label (rows df'))).
  { rewrite (Permutation_map label Hperm).
    rewrite map_map.
    rewrite (map_ext (fun r => label (f r)) label) by exact Hlab.
    apply drop_duplicates_from_labels, Hnd. }
  apply slice_to_lookup in Hr.
  assert (Hl : map label (rows df') !! i = Some (label r)).
  { change (map label (rows df')) with (label <$> rows df').
    rewrite list_lookup_fmap, Hr. reflexivity. }
  rewrite (index_of_NoDup _ _ _ Hnd' Hl) in Hj. inversion Hj; subst j.
  exists v, d. split; [exact Hv|]. split; [exact Hd|].
  rewrite !entry_of_lookup. split; reflexivity.
Qed.


End ExportFacts.

Section ExportWitnesses.
Import Cli.

Definition sample_parser (v : value) : option Z :=
  match v with
  | VStr s =>
      if String.eqb s "2024-01-01" then Some 20240101%Z
      else if String.eqb s "2023-01-01" then Some 20230101%Z
      else None
  | _ => None
  end.

Definition sample_frame : DataFrame :=
  mk_df {[ "id"; "doc_len"; "title"; "published" ]}
    [mk_row 0 {[ "id" := VStr "a"; "doc_len" := VInt 1;
                 "title" := VStr "A"; "published" := VStr "2024-01-01" ]};
     mk_row 1 {[ "id" := VStr "b"; "doc_len" := VInt 3;
                 "published" := VStr "2023-01-01" ]};
     mk_row 2 {[ "id" := VStr "a"; "doc_len" := VInt 7 ]}].

Definition sample_vectors : list (list float) :=
  [[1%float; 0%float]; [0%float; 1%float]; [1%float; 1%float]].

Definition sample_docs : list (option string) :=
  [Some "x"; Some "yyy"; Some "zzzzzzz"].

Lemma sample_exportable : exportable sample_frame sample_vectors sample_docs.
Proof.
  unfold exportable. repeat split; try (simpl; lia); vm_compute; reflexivity.
Defined.





End ExportWitnesses.

(** ** main: profiling followed by the export *)

Section MainFacts.
Import Cli.
Variable to_datetime : value -> option Z.
Variable sort_descending : (row -> option Z) -> list row -> list row.
Hypothesis sort_ok : sorts_descending sort_descending.

Ltac in_columns :=
  apply elem_of_union;
  first [left; apply elem_of_singleton; reflexivity | right; in_columns].

Lemma profile_collection_columns np c profile df embeddings docs ids :
  coll_items c <> [] ->
  profile_collection np c = Ok (profile, df, embeddings, docs, ids) ->
  "id" ∈ columns df /\ "has_doc" ∈ columns df /\ "doc_len" ∈ columns df.
Proof.
  intros Hne H. unfold profile_collection in H.
  destruct (coll_items c) as [|it0 items] eqn:Hitems; [congruence|].
  remember (it0 :: items) as all eqn:Hall.
  assert (Hn : Nat.eqb (length all) 0 = false) by (subst all; reflexivity).
  rewrite Hn in H.
  destruct (np_array np (map item_embedding all)) as [emb|e]; [|discriminate].
  simpl in H. inversion H; subst df. clear H.
  match goal with
  | |- context [Nat.eqb (ndim ?a) 2] => destruct (Nat.eqb (ndim a) 2)
  end; simpl; repeat split; in_columns.
Qed.

Lemma filter_labels (P : row -> Prop) `{forall r, Decision (P r)} l :
  NoDup (map label l) -> NoDup (map label (filter P l)).
Proof.
  induction l as [|r l IH]; simpl; [constructor|].
  rewrite NoDup_cons. intros [Hr Hl]. rewrite filter_cons.
  destruct (decide (P r)); [|apply IH, Hl]. simpl.
  apply NoDup_cons. split; [|apply IH, Hl].
  intros Hin. apply Hr. apply elem_of_map in Hin as (r' & Hlab & Hr').
  apply list_elem_of_filter in Hr' as [_ Hr']. apply elem_of_map. eauto.
Qed.

Lemma imap_labels b (items : list item) n :
  map label (imap (fun i it => profile_row b (n + i) it) items)
  = seq n (length items).
Proof.
  revert n. induction items as [|it items IH]; intros n; [reflexivity|].
  simpl. rewrite Nat.add_0_r. f_equal.
  rewrite <- IH. f_equal. apply imap_ext. intros i x _. simpl.
  f_equal. lia.
Qed.

Lemma NoDup_map_inj {A B} (h : A -> B) l :
  (forall x y, h x = h y -> x = y) -> NoDup l -> NoDup (map h l).
Proof.
  intros Hinj. induction 1 as [|x l Hx Hl IH]; simpl; [constructor|].
  apply NoDup_cons. split; [|exact IH].
  intros Hin. apply elem_of_map in Hin as (y & Hy & Hyl).
  apply Hinj in Hy. subst. contradiction.
Qed.

Lemma Forall2_map_eq {A B C} (g : B -> C) (h : A -> C) l es :
  Forall2 (fun r e => g e = h r) l es -> map g es = map h l.
Proof.
  induction 1 as [|r e l es Hre _ IH]; simpl; [reflexivity|].
  rewrite Hre, IH. reflexivity.
Qed.

(** The steps of [main] on a batch that can be profiled. *)
Lemma main_steps np c :
  coll_items c <> [] ->
  homogeneous (map item_embedding (coll_items c)) = true ->
  exists profile df,
    profile_collection np c
    = Ok (profile, df, Array2 (map item_embedding (coll_items c)),
          map item_document (coll_items c), map item_id (coll_items c))
    /\ profile !! "num_records" = Some (PInt (Z.of_nat (length (coll_items c))))
    /\ rows df = imap (profile_row true) (coll_items c)
    /\ with_documents df
       = Ok (mk_df (columns df)
               (filter (fun r => cell r "has_doc" = VBool true) (rows df)))
    /\ exportable
         (mk_df (columns df)
            (filter (fun r => cell r "has_doc" = VBool true) (rows df)))
         (map item_embedding (coll_items c))
         (map item_document (coll_items c))
    /\ forall es,
         export_for_edge to_datetime sort_descending
           (mk_df (columns df)
              (filter (fun r => cell r "has_doc" = VBool true) (rows df)))
           (Array2 (map item_embedding (coll_items c)))
           (map item_document (coll_items c))
           (map item_id (coll_items c)) 2048 None = Ok es ->
         main to_datetime sort_descending np c = Ok (profile, es).
Proof.
  intros Hne Hh.
  destruct (profile_dimension np c Hne Hh)
    as (profile & df & d & Hp & Hn & _ & _).
  destruct (profile_collection_columns _ _ _ _ _ _ _ Hne Hp)
    as (Hid & Hhas & Hlen).
  destruct (profile_collection_inv _ _ _ _ _ _ _ Hne Hp)
    as (_ & _ & _ & Hrows & _).
  exists profile, df. split; [exact Hp|]. split; [exact Hn|].
  split; [exact Hrows|].
  assert (Hw : with_documents df
               = Ok (mk_df (columns df)
                       (filter (fun r => cell r "has_doc" = VBool true)
                               (rows df)))).
  { unfold with_documents.
    destruct (decide ("has_doc" ∈ columns df)); [reflexivity|contradiction]. }
  split; [exact Hw|]. split.
  - unfold exportable. simpl. split; [exact Hid|]. split; [exact Hlen|].
    pose proof (length_filter (fun r => cell r "has_doc" = VBool true)
                  (rows df)) as Hf.
    rewrite Hrows, length_imap in Hf. rewrite Hrows, !length_map. lia.
  - intros es Hes. unfold main. rewrite Hp. simpl. rewrite Hw. simpl.
    rewrite Hes. reflexivity.
Qed.

(** On an empty collection [main] raises KeyError: the empty table the
    profiler returns has no has_doc column to filter on. *)
Theorem main_empty_collection (np : numpy_release) (name : string) :
  main to_datetime sort_descending np (mk_collection name [])
  = Raise KeyError.
Proof. reflexivity. Qed.


End MainFacts.

Section MainWitnesses.
Import Cli.


End MainWitnesses.

(** ** sample_vectors.py *)

Module SampleVectors.

Definition SAMPLE_SIZE : nat := 20.

Section Sampling.
Context {A : Type}.
(** The random draw behind [random.sample(data, k)]: for a population of
    [n] records, the [k] positions that are chosen. *)
Variable draw : nat -> nat -> list nat.

(** [random.sample(data, k)] *)
Definition random_sample (data : list A) (k : nat) : list A :=
  omap (fun i => data !! i) (draw (length data) k).

(** [main] between reading the export and writing the sample. *)
Definition main (data : list A) : result (list A) :=
  if (length data <? SAMPLE_SIZE)%nat then Raise ValueError
  else Ok (random_sample data SAMPLE_SIZE).
End Sampling.

End SampleVectors.

Section SamplingFacts.
Import SampleVectors.
Context {A : Type}.
Variable draw : nat -> nat -> list nat.

(** What [random.sample] promises of its draw: [k] pairwise distinct
    positions of the population. *)
Definition fair_draw : Prop :=
  forall n k, (k <= n)%nat ->
    length (draw n k) = k /\ NoDup (draw n k)
    /\ Forall (fun i => (i < n)%nat) (draw n k).

Lemma omap_lookup_all (data : list A) idxs :
  Forall (fun i => (i < length data)%nat) idxs ->
  Forall2 (fun i x => data !! i = Some x) idxs
          (omap (fun i => data !! i) idxs).
Proof.
  induction 1 as [|i idxs Hi _ IH]; simpl; [constructor|].
  destruct (lookup_lt_is_Some_2 data i Hi) as [x Hx].
  rewrite Hx. simpl. constructor; assumption.
Qed.

(** The sampler refuses, with ValueError, exactly the exports that hold
    fewer than twenty records, whatever the random draw. *)
Theorem sample_main_raises_iff (data : list A) :
  main draw data = Raise ValueError <-> (length data < 20)%nat.
Proof.
  unfold main, SAMPLE_SIZE.
  destruct (length data <? 20)%nat eqn:E.
  - apply Nat.ltb_lt in E. tauto.
  - apply Nat.ltb_ge in E. split; [discriminate|lia].
Qed.

(** On an export of at least twenty records the sample holds exactly
    twenty records, taken from pairwise distinct positions of the export. *)
Theorem sample_main_distinct_records (data : list A) :
  fair_draw ->
  (20 <= length data)%nat ->
  exists sample positions,
    main draw data = Ok sample
    /\ length sample = 20%nat
    /\ NoDup positions
    /\ Forall2 (fun i x => data !! i = Some x) positions sample.
Proof.
  intros Hdraw Hlen. unfold main, SAMPLE_SIZE.
  destruct (length data <? 20)%nat eqn:E; [apply Nat.ltb_lt in E; lia|].
  destruct (Hdraw (length data) 20%nat Hlen) as (Hk & Hnd & Hlt).
  exists (random_sample draw data 20), (draw (length data) 20).
  pose proof (omap_lookup_all data _ Hlt) as HF.
  split; [reflexivity|]. split; [|split; [exact Hnd|exact HF]].
  unfold random_sample. rewrite <- (Forall2_length _ _ _ HF). exact Hk.
Qed.
End SamplingFacts.

Section SamplingWitness.
Import SampleVectors.

(** A draw that takes the first [k] positions. *)
Definition first_positions (n k : nat) : list nat := seq 0 k.

Lemma first_positions_fair : fair_draw first_positions.
Proof.
  intros n k Hk. unfold first_positions. split; [apply length_seq|].
  split; [apply NoDup_seq|].
  apply Forall_forall. intros i Hi. apply elem_of_seq in Hi. lia.
Qed.

Lemma sample_main_distinct_records_witness :
  exists sample positions,
    main first_positions (seq 0 25) = Ok sample
    /\ length sample = 20%nat
    /\ NoDup positions
    /\ Forall2 (fun i x => seq 0 25 !! i = Some x) positions sample.
Proof.
  apply (sample_main_distinct_records first_positions (seq 0 25)
           first_positions_fair).
  vm_compute. repeat constructor.
Defined.
End SamplingWitness.

Section RaggedWitnesses.
Import Cli.

Definition ragged_collection : collection :=
  mk_collection "c"
    [mk_item "a" [1%float; 2%float] ∅ (Some "x");
     mk_item "b" [3%float] ∅ (Some "y")].

Lemma profile_collection_ragged_raises_witness :
  profile_collection Numpy_1_24_or_later ragged_collection = Raise ValueError.
Proof.
  apply (profile_collection_ragged_raises ragged_collection);
    [discriminate|reflexivity].
Defined.

Lemma profile_collection_ragged_legacy_witness :
  exists profile df embeddings docs ids,
    profile_collection Numpy_before_1_24 ragged_collection
    = Ok (profile, df, embeddings, docs, ids)
    /\ profile !! "embedding_dim" = Some PNone
    /\ profile !! "num_records"
       = Some (PInt (Z.of_nat (length (coll_items ragged_collection)))).
Proof.
  apply (profile_collection_ragged_legacy ragged_collection);
    [discriminate|reflexivity].
Defined.
End RaggedWitnesses.
